(** * dineniso5167: orifice flow rate after DIN EN ISO 5167

    A shallow embedding of [dineniso5167/core.py] and the properties of its
    geometry check, flow-coefficient estimate and fixed-point solver.

    Number model.  A finite binary64 value is taken as the real number it
    denotes: rounding, overflow and the sign of zero are not modelled.  The
    special values that numpy produces instead of raising (the infinities and
    NaN) are kept, because the solver's loop test depends on them.  Python's
    own float arithmetic raises where numpy returns a special value; the
    two are told apart by the tag of a [value]. *)

From Stdlib Require Import Reals Lra List String Bool Arith Lia ZArith.
Import ListNotations.
Open Scope R_scope.

(** ** Decisions on reals as booleans *)

Definition Rltb (x y : R) : bool := if Rlt_dec x y then true else false.
Definition Rleb (x y : R) : bool := if Rle_dec x y then true else false.
Definition Reqb (x y : R) : bool := if Req_dec_T x y then true else false.

(** [y] denotes an integer (Python and C [pow] accept a negative base then). *)
Definition is_int (y : R) : bool := Reqb y (IZR (Int_part y)).

(** ** numpy float64 scalars *)

Inductive num : Type :=
| Fin (r : R)
| PInf
| NInf
| NaN.

Definition inf_of (positive : bool) : num := if positive then PInf else NInf.

Definition nopp (a : num) : num :=
  match a with
  | Fin r => Fin (- r)
  | PInf => NInf
  | NInf => PInf
  | NaN => NaN
  end.

Definition nadd (a b : num) : num :=
  match a, b with
  | NaN, _ | _, NaN => NaN
  | Fin x, Fin y => Fin (x + y)
  | PInf, NInf | NInf, PInf => NaN
  | PInf, _ | _, PInf => PInf
  | NInf, _ | _, NInf => NInf
  end.

Definition nsub (a b : num) : num := nadd a (nopp b).

(** An infinity of the given sign times the finite [r]. *)
Definition nmul_inf (positive : bool) (r : R) : num :=
  if Reqb r 0 then NaN else inf_of (Bool.eqb positive (Rltb 0 r)).

Definition nmul (a b : num) : num :=
  match a, b with
  | NaN, _ | _, NaN => NaN
  | Fin x, Fin y => Fin (x * y)
  | PInf, Fin r | Fin r, PInf => nmul_inf true r
  | NInf, Fin r | Fin r, NInf => nmul_inf false r
  | PInf, PInf | NInf, NInf => PInf
  | PInf, NInf | NInf, PInf => NInf
  end.

(** numpy division: a zero divisor gives an infinity or NaN (with a
    RuntimeWarning), never an exception. *)
Definition ndiv (a b : num) : num :=
  match a, b with
  | NaN, _ | _, NaN => NaN
  | Fin x, Fin y =>
      if Reqb y 0
      then (if Reqb x 0 then NaN else inf_of (Rltb 0 x))
      else Fin (x / y)
  | Fin _, _ => Fin 0
  | PInf, Fin r => inf_of (Rleb 0 r)
  | NInf, Fin r => inf_of (negb (Rleb 0 r))
  | _, _ => NaN
  end.

Definition nsqrt (a : num) : num :=
  match a with
  | Fin r => if Rltb r 0 then NaN else Fin (sqrt r)
  | PInf => PInf
  | NInf => NaN
  | NaN => NaN
  end.

Definition nexp (a : num) : num :=
  match a with
  | Fin r => Fin (exp r)
  | PInf => PInf
  | NInf => Fin 0
  | NaN => NaN
  end.

Definition nabs (a : num) : num :=
  match a with
  | Fin r => Fin (Rabs r)
  | PInf | NInf => PInf
  | NaN => NaN
  end.

(** [np.sign]: -1, 0 or 1, and NaN for NaN. *)
Definition nsign (a : num) : num :=
  match a with
  | Fin r => if Rltb r 0 then Fin (-1) else if Rltb 0 r then Fin 1 else Fin 0
  | PInf => Fin 1
  | NInf => Fin (-1)
  | NaN => NaN
  end.

(** [x ** y] for a finite exponent [y]: a negative base with an exponent
    that is no integer is an invalid operation, hence NaN. *)
Definition npow (x : num) (y : R) : num :=
  if Reqb y 0 then Fin 1 else
  match x with
  | NaN => NaN
  | Fin r =>
      if Rltb 0 r then Fin (Rpower r y)
      else if Reqb r 0 then (if Rltb 0 y then Fin 0 else PInf)
      else if is_int y then Fin (powerRZ r (Int_part y))
      else NaN
  | PInf => if Rltb 0 y then PInf else Fin 0
  | NInf =>
      if Rltb 0 y
      then (if is_int y && Z.odd (Int_part y) then NInf else PInf)
      else Fin 0
  end.

(** Comparisons: every comparison with NaN is false. *)
Definition nlt (a b : num) : bool :=
  match a, b with
  | NaN, _ | _, NaN => false
  | Fin x, Fin y => Rltb x y
  | Fin _, PInf => true
  | Fin _, NInf => false
  | PInf, _ => false
  | NInf, NInf => false
  | NInf, _ => true
  end.

Definition nle (a b : num) : bool :=
  match a, b with
  | NaN, _ | _, NaN => false
  | Fin x, Fin y => Rleb x y
  | _, PInf => true
  | NInf, _ => true
  | _, _ => false
  end.

Definition ngt (a b : num) : bool := nlt b a.

(** [x ** y] with a numpy exponent: the C99 cases for an exponent that is
    infinite or NaN. *)
Definition npow2 (x y : num) : num :=
  match y with
  | Fin r => npow x r
  | NaN => match x with Fin b => if Reqb b 1 then Fin 1 else NaN | _ => NaN end
  | PInf | NInf =>
      match nabs x with
      | NaN => NaN
      | Fin m =>
          if Reqb m 1 then Fin 1
          else if Bool.eqb (Rltb m 1) (match y with PInf => true | _ => false end)
               then Fin 0 else PInf
      | _ => match y with PInf => PInf | _ => Fin 0 end
      end
  end.

(** ** Exceptions and results *)

Inductive exn : Type :=
| ValueError
| NotImplementedError
| ZeroDivisionError
| UnboundLocalError.

(** [Complex]: Python's float power of a negative base returned a complex
    number; the source goes on with it, the model does not follow. *)
Inductive result (A : Type) : Type :=
| Ok (a : A)
| Raise (e : exn)
| Complex.

Arguments Ok {A} a.
Arguments Raise {A} e.
Arguments Complex {A}.

Definition bind {A B : Type} (m : result A) (k : A -> result B) : result B :=
  match m with
  | Ok a => k a
  | Raise e => Raise e
  | Complex => Complex
  end.

Notation "x <- m ;; k" := (bind m (fun x => k))
  (at level 61, m at next level, right associativity).
Notation "' pat <- m ;; k" := (bind m (fun x => match x with pat => k end))
  (at level 61, pat pattern, m at next level, right associativity).

(** ** Values: a Python float, a numpy scalar, a one-dimensional array *)

Inductive value : Type :=
| Py (x : R)
| Np (x : num)
| Arr (xs : list num).

Definition items (v : value) : num + list num :=
  match v with
  | Py x => inl (Fin x)
  | Np x => inl x
  | Arr xs => inr xs
  end.

Fixpoint map2 (f : num -> num -> num) (xs ys : list num) : list num :=
  match xs, ys with
  | x :: xs', y :: ys' => f x y :: map2 f xs' ys'
  | _, _ => []
  end.

(** numpy's element-wise application with broadcasting: a scalar or an array
    of length one stretches; other shapes must agree, else ValueError. *)
Definition broadcast (f : num -> num -> num) (a b : value) : result value :=
  match items a, items b with
  | inl x, inl y => Ok (Np (f x y))
  | inl x, inr ys => Ok (Arr (map (f x) ys))
  | inr xs, inl y => Ok (Arr (map (fun x => f x y) xs))
  | inr xs, inr ys =>
      if (List.length xs =? List.length ys)%nat then Ok (Arr (map2 f xs ys))
      else match xs, ys with
           | [x], _ => Ok (Arr (map (f x) ys))
           | _, [y] => Ok (Arr (map (fun x => f x y) xs))
           | _, _ => Raise ValueError
           end
  end.

Definition vadd (a b : value) : result value :=
  match a, b with
  | Py x, Py y => Ok (Py (x + y))
  | _, _ => broadcast nadd a b
  end.

Definition vsub (a b : value) : result value :=
  match a, b with
  | Py x, Py y => Ok (Py (x - y))
  | _, _ => broadcast nsub a b
  end.

Definition vmul (a b : value) : result value :=
  match a, b with
  | Py x, Py y => Ok (Py (x * y))
  | _, _ => broadcast nmul a b
  end.

(** Python's float division raises on a zero divisor. *)
Definition pydiv (x y : R) : result R :=
  if Reqb y 0 then Raise ZeroDivisionError else Ok (x / y).

Definition vdiv (a b : value) : result value :=
  match a, b with
  | Py x, Py y => q <- pydiv x y ;; Ok (Py q)
  | _, _ => broadcast ndiv a b
  end.

Definition pypow (x y : R) : result value :=
  if Reqb y 0 then Ok (Py 1)
  else if Rltb 0 x then Ok (Py (Rpower x y))
  else if Reqb x 0
       then (if Rltb 0 y then Ok (Py 0) else Raise ZeroDivisionError)
  else if is_int y then Ok (Py (powerRZ x (Int_part y)))
  else Complex.

Definition vpow (a b : value) : result value :=
  match a, b with
  | Py x, Py y => pypow x y
  | _, _ => broadcast npow2 a b
  end.

(** A numpy function of one argument ([np.sqrt], [np.exp], [np.abs],
    [np.sign]): the result is a numpy scalar or an array. *)
Definition vmap (f : num -> num) (v : value) : value :=
  match v with
  | Py x => Np (f (Fin x))
  | Np x => Np (f x)
  | Arr xs => Arr (map f xs)
  end.

(** The builtin [abs]. *)
Definition vabs (v : value) : value :=
  match v with
  | Py x => Py (Rabs x)
  | Np x => Np (nabs x)
  | Arr xs => Arr (map nabs xs)
  end.

Definition nsum (xs : list num) : num := fold_left nadd xs (Fin 0).

Definition mean_list (xs : list num) : num :=
  ndiv (nsum xs) (Fin (INR (List.length xs))).

(** [np.mean]: of an empty array it is NaN. *)
Definition np_mean (v : value) : num :=
  match v with
  | Py x => Fin x
  | Np x => x
  | Arr xs => mean_list xs
  end.

Definition is_nan (a : num) : bool :=
  match a with NaN => true | _ => false end.

(** [np.nanmean]: the mean of the entries that are not NaN. *)
Definition np_nanmean (v : value) : num :=
  match v with
  | Py x => Fin x
  | Np x => x
  | Arr xs => mean_list (filter (fun a => negb (is_nan a)) xs)
  end.

(** [np.sum(v < 0) > 0]: some entry is negative. *)
Definition any_negative (v : value) : bool :=
  match v with
  | Py x => Rltb x 0
  | Np x => nlt x (Fin 0)
  | Arr xs => existsb (fun a => nlt a (Fin 0)) xs
  end.

(** Expressions: operands are evaluated left to right, as Python does. *)
Definition lift2 (op : value -> value -> result value)
    (a b : result value) : result value :=
  x <- a ;; y <- b ;; op x y.

Definition lit (r : R) : result value := Ok (Py r).

Declare Scope py_scope.
Delimit Scope py_scope with py.
Notation "a +! b" := (lift2 vadd a b) (at level 50, left associativity) : py_scope.
Notation "a -! b" := (lift2 vsub a b) (at level 50, left associativity) : py_scope.
Notation "a *! b" := (lift2 vmul a b) (at level 40, left associativity) : py_scope.
Notation "a /! b" := (lift2 vdiv a b) (at level 40, left associativity) : py_scope.
Notation "a ^! b" := (lift2 vpow a b) (at level 30, right associativity) : py_scope.
Notation "# r" := (lit r) (at level 9, r at level 9, format "# r") : py_scope.

Definition lift1 (f : value -> value) (a : result value) : result value :=
  x <- a ;; Ok (f x).

Definition np_sqrt : result value -> result value := lift1 (vmap nsqrt).
Definition np_exp : result value -> result value := lift1 (vmap nexp).
Definition np_abs : result value -> result value := lift1 (vmap nabs).
Definition np_sign : result value -> result value := lift1 (vmap nsign).
Definition np_pi : result value := lit PI.

Definition ret_value (v : value) : result value := Ok v.
Coercion ret_value : value >-> result.

(** ** core.py *)

Definition Rs : R := 287.058.
Definition Rd : R := 461.523.
Definition T0_Kelvin : R := 273.15.
Definition VAPOR_PRESSURE : R := 2300.

Definition compute_mu_air (T : value) : result value :=
  (#1.458e-6 *! T ^! #1.5 /! (T +! #110.4))%py.

Definition compute_density (p T phi pv : value) : result value :=
  Rf <- (#Rs /! (#1 -! phi *! pv /! p *! (#1 -! #Rs /! #Rd)))%py ;;
  (p /! (Rf *! T))%py.

Definition Cel2Kel (T : value) : result value := (T +! #T0_Kelvin)%py.

Definition Kel2Cel (T : value) : result value := (T -! #T0_Kelvin)%py.

Definition compute_reynolds_number (u d nu : value) : result value :=
  (u *! d /! nu)%py.

(** What [warnings.warn] reports, with the number shown in the message. *)
Inductive advisory : Type :=
| OrificeTooSmall (d_mm : R)
| PipeOutOfRange (D_mm : R)
| BetaOutOfRange (beta : R).

Definition compute_beta (d D : R) (unit mounting_type : string)
  : result (R * list advisory) :=
  if Rleb D d then Raise ValueError else
  beta <- pydiv d D ;;
  let '(d, D) :=
    if String.eqb unit "m" then (d * 1000, D * 1000) else (d, D) in
  if negb (String.eqb mounting_type "flange") then Raise NotImplementedError
  else if Rleb d 12.5 then Ok (beta, [OrificeTooSmall d])
  else if Rltb D 50 || Rltb 1000 D then Ok (beta, [PipeOutOfRange D])
  else if Rleb 0.10 beta then
    if Rleb beta 0.75 then Ok (beta, [])
    else Ok (beta, [BetaOutOfRange beta])
  else Ok (beta, [BetaOutOfRange beta]).

(** The piecewise table of the uncertainty of [C] (lines 175-182). *)
Definition base_uncertainty (beta : R) : R :=
  if Rleb 0.1 beta && Rltb beta 0.2 then (0.7 - beta) / 100
  else if Rleb 0.2 beta && Rleb beta 0.6 then 0.5 / 100
  else if Rltb 0.6 beta && Rleb beta 0.77 then (1.667 * beta - 0.5) / 100
  else 0.

(** The uncertainty part of [compute_flow_coefficient] (lines 175-187). *)
Definition flow_uncertainty (beta D : R) (Re : value) : R :=
  let uncertainty := base_uncertainty beta in
  let uncertainty :=
    if Rltb 0 uncertainty then
      if Rltb 0.5 beta && nlt (np_mean Re) (Fin 10000)
      then uncertainty + 0.5 / 100 else uncertainty
    else uncertainty in
  if Rltb D 0.7112
  then uncertainty + 0.9 * (0.75 - beta) * (2.8 - D / 25.4) / 100
  else uncertainty.

(** [beta] and [D] are Python floats, [Re] is what numpy computed. *)
Definition compute_flow_coefficient (beta D : R) (Re : value)
  : result (value * R) :=
  let b := Py beta in
  L_1 <- (#25.4 /! #1000 /! Py D)%py ;;
  L_s2 <- (#25.4 /! #1000 /! Py D)%py ;;
  M_s2 <- (#2 *! L_s2 /! (#1 -! b))%py ;;
  A <- ((#19000 *! b /! Re) ^! #0.8)%py ;;
  C <- (#0.5961 +! #0.0261 *! b ^! #2 -! #0.216 *! b ^! #8
        +! #0.000521 *! (#1000000 *! b /! Re) ^! #0.7
        +! (#0.0188 +! #0.0063 *! A) *! b ^! #3.5 *! (#1000000 /! Re) ^! #0.3
        +! (#0.043 +! #0.080 *! np_exp (#(-10) *! L_1)
            -! #0.123 *! np_exp (#(-7) *! L_1))
           *! (#1 -! #0.11 *! A) *! (b ^! #4 /! (#1 -! b ^! #4))
        -! #0.031 *! (M_s2 -! #0.8 *! M_s2 ^! #1.1) *! b ^! #1.3)%py ;;
  C <- (if Rltb D 0.7112
        then C +! #0.011 *! (#0.75 -! b) *! (#2.8 -! Py D /! #0.0254)
        else C)%py ;;
  Ok (C, flow_uncertainty beta D Re).

Definition _vfr (C_0 beta d eps dp rho : value) : result value :=
  if any_negative dp
  then (C_0 /! np_sqrt (#1 -! beta ^! #4) *! eps *! np_pi /! #4 *! d ^! #2
        *! np_sqrt (#2 *! np_abs dp /! rho) *! np_sign dp)%py
  else (C_0 /! np_sqrt (#1 -! beta ^! #4) *! eps *! np_pi /! #4 *! d ^! #2
        *! np_sqrt (#2 *! dp /! rho))%py.

Definition compute_expansion_number (beta p1 p2 kappa : value)
  : result (value * value) :=
  eps <- (#1 -! (#0.351 +! #0.256 *! beta ^! #4 +! #0.93 *! beta ^! #8)
              *! (#1 -! (p2 /! p1) ^! (#1 /! kappa)))%py ;;
  dp <- (p2 -! p1)%py ;;
  rel_uncertainty <- (#3.5 *! dp /! kappa /! p1 /! #100)%py ;;
  Ok (eps, rel_uncertainty).

(** The arguments of [compute_volume_flow_rate]; [verbose] is left false,
    so nothing is printed but the message of the iteration cap. *)
Record args : Type := {
  dp : value;
  d_orifice : R;
  d_pipe : R;
  length_unit : string;
  p1 : value;
  T : value;
  phi : R;
  kappa : R;
  C_guess : R;
  residuum : R
}.

(** Lines 252-257: a float is tested itself, an array by its mean. *)
Definition normalize_T (T : value) : result value :=
  match T with
  | Py t => if Rltb t 100 then Cel2Kel T else Ok T
  | Np t => if nlt t (Fin 100) then Cel2Kel T else Ok T
  | Arr _ => if nlt (np_mean T) (Fin 100) then Cel2Kel T else Ok T
  end.

(** What the lines before the loop (247-263) leave in the local variables. *)
Record env : Type := {
  e_beta : R;
  e_advisories : list advisory;
  e_d_orifice : R;
  e_d_pipe : R;
  e_A_D : value;
  e_T : value;
  e_rho_air : value;
  e_nu_air : value;
  e_eps : value;
  e_eps_uncertainty : value;
  e_dp : value
}.

Definition setup (a : args) : result env :=
  '(beta, adv) <- compute_beta (d_orifice a) (d_pipe a) (length_unit a) "flange" ;;
  let '(d_o, d_p) :=
    if String.eqb (length_unit a) "mm"
    then (d_orifice a / 1000, d_pipe a / 1000)
    else (d_orifice a, d_pipe a) in
  A_D <- (Py d_o ^! #2 /! #4 *! np_pi)%py ;;
  T' <- normalize_T (T a) ;;
  rho_air <- compute_density (p1 a) T' (Py (phi a)) (Py VAPOR_PRESSURE) ;;
  mu_air <- compute_mu_air T' ;;
  nu_air <- (mu_air /! rho_air)%py ;;
  p2 <- (p1 a +! dp a)%py ;;
  '(eps, eps_uncertainty) <-
     compute_expansion_number (Py beta) (p1 a) p2 (Py (kappa a)) ;;
  Ok {| e_beta := beta; e_advisories := adv;
        e_d_orifice := d_o; e_d_pipe := d_p; e_A_D := A_D; e_T := T';
        e_rho_air := rho_air; e_nu_air := nu_air;
        e_eps := eps; e_eps_uncertainty := eps_uncertainty;
        e_dp := dp a |}.

(** The variables the loop assigns; [None] is a name not yet bound. *)
Record loop_state : Type := {
  s_vfr_value : option value;
  s_vfr_value_max : option value;
  s_vfr_value_min : option value;
  s_Re : option value;
  s_C : option value;
  s_C_err : option R;
  s_C_guess : value;
  s_residuum : value;
  s_j : nat
}.

Definition initial_state (a : args) : loop_state :=
  {| s_vfr_value := None; s_vfr_value_max := None; s_vfr_value_min := None;
     s_Re := None; s_C := None; s_C_err := None;
     s_C_guess := Py (C_guess a); s_residuum := Py (residuum a); s_j := 0 |}.

Definition eps_res : R := 0.0001.

(** Lines 288-295: one pass through the loop body. *)
Definition body (e : env) (s : loop_state) : result loop_state :=
  let beta := Py (e_beta e) in
  let d := Py (e_d_orifice e) in
  vfr_value <- _vfr (s_C_guess s) beta d (e_eps e) (e_dp e) (e_rho_air e) ;;
  u <- (Np (np_nanmean vfr_value) /! e_A_D e)%py ;;
  Re <- compute_reynolds_number u (Py (e_d_pipe e)) (e_nu_air e) ;;
  '(C, C_err) <- compute_flow_coefficient (e_beta e) (e_d_pipe e) Re ;;
  C_hi <- (s_C_guess s +! #C_err)%py ;;
  eps_hi <- (e_eps e +! e_eps_uncertainty e)%py ;;
  vfr_value_max <- _vfr C_hi beta d eps_hi (e_dp e) (e_rho_air e) ;;
  C_lo <- (s_C_guess s -! #C_err)%py ;;
  eps_lo <- (e_eps e -! e_eps_uncertainty e)%py ;;
  vfr_value_min <- _vfr C_lo beta d eps_lo (e_dp e) (e_rho_air e) ;;
  r <- (C -! s_C_guess s)%py ;;
  Ok {| s_vfr_value := Some vfr_value;
        s_vfr_value_max := Some vfr_value_max;
        s_vfr_value_min := Some vfr_value_min;
        s_Re := Some Re; s_C := Some C; s_C_err := Some C_err;
        s_C_guess := C; s_residuum := vabs r; s_j := S (s_j s) |}.

(** Lines 287-298.  The result says whether the loop left through [break],
    that is, after printing the message of the iteration cap.  [None]: the
    fuel of the model ran out. *)
Fixpoint while_loop (fuel : nat) (e : env) (s : loop_state)
  : option (result (loop_state * bool)) :=
  if ngt (np_mean (s_residuum s)) (Fin eps_res) then
    match fuel with
    | O => None
    | S fuel' =>
        match body e s with
        | Ok s' =>
            if (999 <? s_j s')%nat then Some (Ok (s', true))
            else while_loop fuel' e s'
        | Raise x => Some (Raise x)
        | Complex => Some Complex
        end
    end
  else Some (Ok (s, false)).

(** Reading a local variable. *)
Definition load {A : Type} (x : option A) : result A :=
  match x with
  | Some v => Ok v
  | None => Raise UnboundLocalError
  end.

Record outcome : Type := {
  qv : value;
  qv_min : value;
  qv_max : value;
  dp_loss : value;
  max_iterations_reached : bool;
  advisories : list advisory;
  final : loop_state
}.

(** Lines 300-314, after the loop. *)
Definition finish (e : env) (s : loop_state) (capped : bool) : result outcome :=
  let beta := Py (e_beta e) in
  C <- load (s_C s) ;;
  loss <- ((np_sqrt (#1 -! beta ^! #4 *! (#1 -! C ^! #2)) -! C *! beta ^! #2)
           /! (np_sqrt (#1 -! beta ^! #4 *! (#1 -! C ^! #2)) +! C *! beta ^! #2)
           *! e_dp e)%py ;;
  vfr_value <- load (s_vfr_value s) ;;
  vfr_value_min <- load (s_vfr_value_min s) ;;
  vfr_value_max <- load (s_vfr_value_max s) ;;
  Ok {| qv := vfr_value; qv_min := vfr_value_min; qv_max := vfr_value_max;
        dp_loss := loss; max_iterations_reached := capped;
        advisories := e_advisories e; final := s |}.

Definition run (fuel : nat) (a : args) : option (result outcome) :=
  match setup a with
  | Ok e =>
      match while_loop fuel e (initial_state a) with
      | Some (Ok (s, capped)) => Some (finish e s capped)
      | Some (Raise x) => Some (Raise x)
      | Some Complex => Some Complex
      | None => None
      end
  | Raise x => Some (Raise x)
  | Complex => Some Complex
  end.

(** The loop never runs a model out of 1000 units of fuel (see
    [while_loop_fuel]); the second branch is never taken. *)
Definition compute_volume_flow_rate (a : args) : result outcome :=
  match run 1000 a with
  | Some r => r
  | None => Complex
  end.


(** ** Closed forms over the reals

    What the expressions of core.py evaluate to where every operand is a
    finite number inside the domain of the operation. *)

(** The value of [C] in [compute_flow_coefficient] for a positive Reynolds
    number (lines 162-172). *)
Definition C_real (beta D re : R) : R :=
  let L := 25.4 / 1000 / D in
  let M := 2 * L / (1 - beta) in
  let A := Rpower (19000 * beta / re) 0.8 in
  let c :=
    0.5961 + 0.0261 * Rpower beta 2 - 0.216 * Rpower beta 8
    + 0.000521 * Rpower (1000000 * beta / re) 0.7
    + (0.0188 + 0.0063 * A) * Rpower beta 3.5 * Rpower (1000000 / re) 0.3
    + (0.043 + 0.080 * exp (-10 * L) - 0.123 * exp (-7 * L))
      * (1 - 0.11 * A) * (Rpower beta 4 / (1 - Rpower beta 4))
    - 0.031 * (M - 0.8 * Rpower M 1.1) * Rpower beta 1.3 in
  if Rltb D 0.7112
  then c + 0.011 * (0.75 - beta) * (2.8 - D / 0.0254)
  else c.

(** The term line 187 adds to the uncertainty for a pipe below 0.7112 m. *)
Definition small_bore_uncertainty (beta D : R) : R :=
  if Rltb D 0.7112 then 0.9 * (0.75 - beta) * (2.8 - D / 25.4) / 100 else 0.

(** The temperature in kelvin, for a float (lines 252-254). *)
Definition kelvin (t : R) : R := if Rltb t 100 then t + T0_Kelvin else t.

(** A diameter in metres (lines 248-250). *)
Definition metres (unit : string) (x : R) : R :=
  if String.eqb unit "mm" then x / 1000 else x.

(** A diameter as the advisory checks of [compute_beta] read it
    (lines 116-118). *)
Definition millimetres (unit : string) (x : R) : R :=
  if String.eqb unit "m" then x * 1000 else x.

(** The orifice area (line 251). *)
Definition area (d : R) : R := Rpower d 2 / 4 * PI.

Definition rho_real (p t phi : R) : R :=
  p / (Rs / (1 - phi * VAPOR_PRESSURE / p * (1 - Rs / Rd)) * t).

Definition mu_real (t : R) : R := 1.458e-6 * Rpower t 1.5 / (t + 110.4).

Definition eps_real (beta p dpv kappa : R) : R :=
  1 - (0.351 + 0.256 * Rpower beta 4 + 0.93 * Rpower beta 8)
      * (1 - Rpower ((p + dpv) / p) (1 / kappa)).

Definition eps_uncertainty_real (p dpv kappa : R) : R :=
  3.5 * (p + dpv - p) / kappa / p / 100.

(** The local variables before the loop when pressure, temperature and
    differential pressure are floats. *)
Definition scalar_env (d D : R) (unit : string) (dpv p t ph kap : R)
    (adv : list advisory) : env :=
  {| e_beta := d / D; e_advisories := adv;
     e_d_orifice := metres unit d; e_d_pipe := metres unit D;
     e_A_D := Py (area (metres unit d));
     e_T := Py (kelvin t);
     e_rho_air := Py (rho_real p (kelvin t) ph);
     e_nu_air := Py (mu_real (kelvin t) / rho_real p (kelvin t) ph);
     e_eps := Py (eps_real (d / D) p dpv kap);
     e_eps_uncertainty := Py (eps_uncertainty_real p dpv kap);
     e_dp := Py dpv |}.

(** Floats for which the lines before the loop neither raise nor leave the
    reals. *)
Definition natural (d D dpv p t ph kap : R) : Prop :=
  0 < d < D /\ 0 < p /\ 0 < p + dpv /\ 0 < kelvin t /\ kap <> 0 /\
  0 < 1 - ph * VAPOR_PRESSURE / p * (1 - Rs / Rd).

(** ** Views of a result *)

Definition rmap {A B : Type} (f : A -> B) (r : result A) : result B :=
  match r with
  | Ok a => Ok (f a)
  | Raise x => Raise x
  | Complex => Complex
  end.

(** The tuple that [compute_volume_flow_rate] returns. *)
Definition returned (o : outcome) : value * value * value * value :=
  (qv o, qv_min o, qv_max o, dp_loss o).

Definition with_unit (a : args) (unit : string) : args :=
  {| dp := dp a; d_orifice := d_orifice a; d_pipe := d_pipe a;
     length_unit := unit; p1 := p1 a; T := T a; phi := phi a;
     kappa := kappa a; C_guess := C_guess a; residuum := residuum a |}.

Definition with_advisories (e : env) (adv : list advisory) : env :=
  {| e_beta := e_beta e; e_advisories := adv;
     e_d_orifice := e_d_orifice e; e_d_pipe := e_d_pipe e;
     e_A_D := e_A_D e; e_T := e_T e; e_rho_air := e_rho_air e;
     e_nu_air := e_nu_air e; e_eps := e_eps e;
     e_eps_uncertainty := e_eps_uncertainty e; e_dp := e_dp e |}.

(** ** The loop body on floats *)

(** The value of [_vfr] (lines 203-207). *)
Definition vfr_real (c beta d eps dpv rho : R) : R :=
  if Rltb dpv 0
  then c / sqrt (1 - Rpower beta 4) * eps * PI / 4 * Rpower d 2
       * sqrt (2 * Rabs dpv / rho) * -1
  else c / sqrt (1 - Rpower beta 4) * eps * PI / 4 * Rpower d 2
       * sqrt (2 * dpv / rho).

(** A scalar holding the finite number [c]. *)
Definition real_value (v : value) (c : R) : Prop :=
  v = Py c \/ v = Np (Fin c).

(** The variables the body reads are floats inside the domain of every
    operation of the body. *)
Record ready (e : env) (A rho nu eps unc dpv : R) : Prop := {
  ready_beta : 0 < e_beta e < 1;
  ready_d : 0 < e_d_orifice e;
  ready_D : 0 < e_d_pipe e;
  ready_A : e_A_D e = Py A /\ 0 < A;
  ready_rho : e_rho_air e = Py rho /\ 0 < rho;
  ready_nu : e_nu_air e = Py nu /\ 0 < nu;
  ready_eps : e_eps e = Py eps;
  ready_unc : e_eps_uncertainty e = Py unc;
  ready_dp : e_dp e = Py dpv
}.

(** The state after a pass that started with the coefficient guess [c] and
    computed the coefficient [C] with residual [r]. *)
Definition pass (e : env) (s : loop_state) (c eps unc dpv rho re : R)
    (C r : num) : loop_state :=
  let err := flow_uncertainty (e_beta e) (e_d_pipe e) (Np (Fin re)) in
  let beta := e_beta e in
  let d := e_d_orifice e in
  {| s_vfr_value := Some (Np (Fin (vfr_real c beta d eps dpv rho)));
     s_vfr_value_max :=
       Some (Np (Fin (vfr_real (c + err) beta d (eps + unc) dpv rho)));
     s_vfr_value_min :=
       Some (Np (Fin (vfr_real (c - err) beta d (eps - unc) dpv rho)));
     s_Re := Some (Np (Fin re)); s_C := Some (Np C); s_C_err := Some err;
     s_C_guess := Np C; s_residuum := Np r; s_j := S (s_j s) |}.

(** What multiplies [C_0 * eps] in [_vfr]. *)
Definition flow_factor (beta d dpv rho : R) : R := vfr_real 1 beta d 1 dpv rho.

(** ** Example calls

    A pipe of 100 mm with an orifice of 50 mm, air at 2 bar and 293.15 K. *)
Definition example_call (dpv kap : R) : args :=
  {| dp := Py dpv; d_orifice := 50; d_pipe := 100; length_unit := "mm";
     p1 := Py 200000; T := Py 293.15; phi := 0; kappa := kap;
     C_guess := 0.62; residuum := 0.1 |}.

(** A pipe of 1000 mm with an orifice of 999.9 mm, air at 100 Pa and
    293.15 K, a pressure difference of a tenth of a micropascal. *)
Definition wide_orifice_call : args :=
  {| dp := Py 1e-7; d_orifice := 999.9; d_pipe := 1000; length_unit := "mm";
     p1 := Py 100; T := Py 293.15; phi := 0; kappa := 1.4;
     C_guess := 0.62; residuum := 0.1 |}.

(** The Reynolds number of a pass of that call that starts with the
    coefficient guess [c]. *)
Definition wide_orifice_reynolds (c : R) : R :=
  vfr_real c (999.9 / 1000) (metres "mm" 999.9)
    (eps_real (999.9 / 1000) 100 1e-7 1.4) 1e-7
    (rho_real 100 (kelvin 293.15) 0)
  / area (metres "mm" 999.9) * metres "mm" 1000
  / (mu_real (kelvin 293.15) / rho_real 100 (kelvin 293.15) 0).

(** The Reynolds number of a pass that starts with the coefficient guess
    [c] (lines 288-289). *)
Definition reynolds (e : env) (A rho nu eps dpv c : R) : R :=
  vfr_real c (e_beta e) (e_d_orifice e) eps dpv rho / A * e_d_pipe e / nu.

(** ** Entries and shapes *)

(** The length of an array, [None] for a scalar. *)
Definition size (v : value) : option nat :=
  match v with
  | Arr xs => Some (List.length xs)
  | _ => None
  end.

(** Entry [i] under broadcasting: a scalar and an array of length one have
    the same entry at every index. *)
Definition get (v : value) (i : nat) : num :=
  match v with
  | Py x => Fin x
  | Np x => x
  | Arr xs => nth (if (List.length xs =? 1)%nat then 0%nat else i) xs NaN
  end.

Definition valid_index (v : value) (i : nat) : Prop :=
  match size v with
  | Some n => n = 1%nat \/ (i < n)%nat
  | None => True
  end.

(** Shapes that numpy broadcasts against each other, and the result. *)
Definition compat (s t : option nat) : Prop :=
  match s, t with
  | Some n, Some m => n = m \/ n = 1%nat \/ m = 1%nat
  | _, _ => True
  end.

Definition join (s t : option nat) : option nat :=
  match s, t with
  | None, x | x, None => x
  | Some n, Some m =>
      if (n =? m)%nat then Some n else if (n =? 1)%nat then Some m else Some n
  end.

(** An entry of the value of [_vfr] (lines 203-207). *)
Definition vfr_num (c : num) (beta d : R) (eps dpi rho : num)
    (negative : bool) : num :=
  let X :=
    nmul (ndiv (nmul (nmul (ndiv c (nsqrt (nsub (Fin 1)
                                             (npow2 (Fin beta) (Fin 4)))))
                           eps) (Fin PI)) (Fin 4))
         (npow2 (Fin d) (Fin 2)) in
  if negative
  then nmul (nmul X (nsqrt (ndiv (nmul (Fin 2) (nabs dpi)) rho))) (nsign dpi)
  else nmul X (nsqrt (ndiv (nmul (Fin 2) dpi) rho)).

(** A value that numpy computed: a numpy scalar or an array. *)
Definition numpy (v : value) : Prop :=
  match v with
  | Py _ => False
  | _ => True
  end.

(** A state about to enter pass number 1000 with the residual 0.1. *)
Definition before_last_pass (c : R) : loop_state :=
  {| s_vfr_value := None; s_vfr_value_max := None; s_vfr_value_min := None;
     s_Re := None; s_C := None; s_C_err := None;
     s_C_guess := Py c; s_residuum := Py 0.1; s_j := 999 |}.

(** ** Predicates on loop states *)

(** Every variable of the body is bound. *)
Definition bound (s : loop_state) : Prop :=
  s_vfr_value s <> None /\ s_vfr_value_max s <> None /\
  s_vfr_value_min s <> None /\ s_C s <> None.

(** The coefficient guess is a finite scalar of at least [lo]. *)
Definition above (lo : R) (s : loop_state) : Prop :=
  exists c, real_value (s_C_guess s) c /\ lo <= c.

(** The state is the result of a pass that started from a guess of at
    least [lo]. *)
Definition passed (e : env) (A rho nu eps unc dpv lo : R)
    (s' : loop_state) : Prop :=
  exists s c C r,
    lo <= c /\ real_value (s_C_guess s) c /\ body e s = Ok s' /\
    s' = pass e s c eps unc dpv rho (reynolds e A rho nu eps dpv c) (Fin C) r.

(** The Reynolds number of a pass of the example call. *)
Definition example_reynolds (dpv kap c : R) : R :=
  vfr_real c (50 / 100) (metres "mm" 50)
    (eps_real (50 / 100) 200000 dpv kap) dpv
    (rho_real 200000 (kelvin 293.15) 0)
  / area (metres "mm" 50) * metres "mm" 100
  / (mu_real (kelvin 293.15) / rho_real 200000 (kelvin 293.15) 0).

(** ** Facts on operations *)

(** The index that [get] reads in an array of length [n]. *)
Definition slot (n i : nat) : nat := if (n =? 1)%nat then 0%nat else i.

(** What an operation that returns says about shapes and entries. *)
Definition op_facts (op : value -> value -> result value)
    (nf : num -> num -> num) : Prop :=
  forall a b r, op a b = Ok r ->
    compat (size a) (size b) /\ size r = join (size a) (size b) /\
    forall i, valid_index r i ->
      valid_index a i /\ valid_index b i /\ get r i = nf (get a i) (get b i).

(** Addition, subtraction and multiplication return whenever the shapes
    agree. *)
Definition total_op (op : value -> value -> result value) : Prop :=
  forall a b, compat (size a) (size b) ->
    exists r, op a b = Ok r /\ size r = join (size a) (size b) /\
              (numpy a \/ numpy b -> numpy r).
(** * Properties *)

(** ** Decisions *)

Lemma Rltb_true x y : x < y -> Rltb x y = true.
Proof. intros H. unfold Rltb. destruct (Rlt_dec x y); [reflexivity | contradiction]. Qed.

Lemma Rltb_false x y : y <= x -> Rltb x y = false.
Proof. intros H. unfold Rltb. destruct (Rlt_dec x y); [lra | reflexivity]. Qed.

Lemma Rleb_true x y : x <= y -> Rleb x y = true.
Proof. intros H. unfold Rleb. destruct (Rle_dec x y); [reflexivity | contradiction]. Qed.

Lemma Rleb_false x y : y < x -> Rleb x y = false.
Proof. intros H. unfold Rleb. destruct (Rle_dec x y); [lra | reflexivity]. Qed.

Lemma Reqb_true x y : x = y -> Reqb x y = true.
Proof. intros H. unfold Reqb. destruct (Req_dec_T x y); [reflexivity | contradiction]. Qed.

Lemma Reqb_false x y : x <> y -> Reqb x y = false.
Proof. intros H. unfold Reqb. destruct (Req_dec_T x y); [contradiction | reflexivity]. Qed.

(** Case analysis on every decision on reals in the goal. *)
Ltac rcases :=
  unfold Rltb, Rleb, Reqb in *;
  repeat match goal with
    | |- context [Rlt_dec ?x ?y] => destruct (Rlt_dec x y)
    | |- context [Rle_dec ?x ?y] => destruct (Rle_dec x y)
    | |- context [Req_dec_T ?x ?y] => destruct (Req_dec_T x y)
    end.

(** ** compute_beta *)

Lemma pydiv_ok x y : y <> 0 -> pydiv x y = Ok (x / y).
Proof. intros H. unfold pydiv. now rewrite Reqb_false. Qed.

Lemma pydiv_zero x : pydiv x 0 = Raise ZeroDivisionError.
Proof. unfold pydiv. now rewrite Reqb_true. Qed.

(** With the mounting type "flange" the call returns [d / D], whatever the
    advisory checks find, as soon as the two fatal tests are passed. *)
Lemma compute_beta_flange_ok d D unit :
  d < D -> D <> 0 ->
  exists adv, compute_beta d D unit "flange" = Ok (d / D, adv).
Proof.
  intros Hlt HD. unfold compute_beta.
  rewrite Rleb_false by assumption. rewrite pydiv_ok by assumption.
  cbn [bind]. destruct (String.eqb unit "m"); cbn [negb String.eqb Ascii.eqb Bool.eqb];
    repeat match goal with
      | |- context [if ?c then _ else _] => destruct c
      end; eexists; reflexivity.
Qed.

Lemma compute_beta_raises d D unit mounting_type :
  D <= d \/ D = 0 \/ mounting_type <> "flange"%string ->
  exists e, compute_beta d D unit mounting_type = Raise e.
Proof.
  intros H. unfold compute_beta.
  destruct (Rle_dec D d) as [Hle | Hgt].
  - rewrite Rleb_true by assumption. eexists; reflexivity.
  - rewrite Rleb_false by lra.
    destruct (Req_dec_T D 0) as [-> | HD].
    + rewrite pydiv_zero. eexists; reflexivity.
    + rewrite pydiv_ok by assumption. cbn [bind].
      destruct H as [H | [H | H]]; [lra | contradiction |].
      apply String.eqb_neq in H. rewrite H.
      destruct (String.eqb unit "m"); eexists; reflexivity.
Qed.

(** C8. Whatever [d], [D] and [unit] are, [compute_beta] with a mounting type
    other than "flange" raises and returns no beta: ValueError when [D <= d],
    ZeroDivisionError when [d < D = 0], NotImplementedError otherwise. *)
Theorem compute_beta_unsupported_mounting d D unit mounting_type :
  mounting_type <> "flange"%string ->
  (exists e, compute_beta d D unit mounting_type = Raise e) /\
  (d < D -> D <> 0 ->
   compute_beta d D unit mounting_type = Raise NotImplementedError).
Proof.
  intros H. split.
  - apply compute_beta_raises. auto.
  - intros Hlt HD. unfold compute_beta.
    rewrite Rleb_false by assumption. rewrite pydiv_ok by assumption.
    cbn [bind]. apply String.eqb_neq in H. rewrite H.
    destruct (String.eqb unit "m"); reflexivity.
Qed.

Lemma compute_beta_unsupported_mounting_witness :
  compute_beta 50 100 "mm" "corner" = Raise NotImplementedError.
Proof.
  apply (proj2 (compute_beta_unsupported_mounting 50 100 "mm" "corner"
                  ltac:(discriminate))); lra.
Defined.

Lemma compute_beta_invalid d D unit mounting_type :
  D <= d -> compute_beta d D unit mounting_type = Raise ValueError.
Proof. intros H. unfold compute_beta. now rewrite Rleb_true. Qed.

(** C7. For diameters, that is for an orifice diameter that is not negative,
    [compute_beta] with the mounting type "flange" raises exactly when
    [D <= d], and then the ValueError of line 113; for every [D > d] it
    returns [d / D] of the values as given, for every unit and whatever the
    advisory checks find. *)
Theorem compute_beta_flange d D unit :
  0 <= d ->
  ((exists e, compute_beta d D unit "flange" = Raise e) <-> D <= d) /\
  (D <= d -> compute_beta d D unit "flange" = Raise ValueError) /\
  (d < D -> exists adv, compute_beta d D unit "flange" = Ok (d / D, adv)).
Proof.
  intros Hd.
  assert (Hok : d < D ->
            exists adv, compute_beta d D unit "flange" = Ok (d / D, adv))
    by (intros H; apply compute_beta_flange_ok; lra).
  split; [split |]; [| | split]; try assumption.
  - intros [e He]. destruct (Rle_dec D d) as [Hle | Hgt]; [assumption |].
    destruct Hok as [adv Hadv]; [lra |]. rewrite Hadv in He. discriminate.
  - intros H. exists ValueError. now apply compute_beta_invalid.
  - apply compute_beta_invalid.
Qed.

Lemma compute_beta_flange_witness :
  compute_beta 100 50 "m" "flange" = Raise ValueError /\
  exists adv, compute_beta 5 100 "mm" "flange" = Ok (5 / 100, adv).
Proof.
  split.
  - apply (proj1 (proj2 (compute_beta_flange 100 50 "m" ltac:(lra)))). lra.
  - apply (proj2 (proj2 (compute_beta_flange 5 100 "mm" ltac:(lra)))). lra.
Defined.

(** ** Evaluating expressions *)

Lemma bind_Ok {A B : Type} (m : result A) (k : A -> result B) (b : B) :
  bind m k = Ok b -> exists a, m = Ok a /\ k a = Ok b.
Proof. destruct m; cbn; intros H; try discriminate. eauto. Qed.

Lemma pypow_pos x y : 0 < x -> y <> 0 -> pypow x y = Ok (Py (Rpower x y)).
Proof.
  intros Hx Hy. unfold pypow. rewrite Reqb_false by assumption.
  now rewrite Rltb_true.
Qed.

Lemma npow_pos x y : 0 < x -> y <> 0 -> npow (Fin x) y = Fin (Rpower x y).
Proof.
  intros Hx Hy. unfold npow. rewrite Reqb_false by assumption.
  now rewrite Rltb_true.
Qed.

Lemma ndiv_fin x y : y <> 0 -> ndiv (Fin x) (Fin y) = Fin (x / y).
Proof. intros H. cbn. now rewrite Reqb_false. Qed.

Lemma nsqrt_fin x : 0 <= x -> nsqrt (Fin x) = Fin (sqrt x).
Proof. intros H. cbn. now rewrite Rltb_false. Qed.

Lemma Rpower_lt_1 x y : 0 < x < 1 -> 0 < y -> Rpower x y < 1.
Proof.
  intros [H0 H1] Hy. unfold Rpower.
  rewrite <- exp_0. apply exp_increasing.
  assert (ln x < 0) by (rewrite <- ln_1; now apply ln_increasing).
  nra.
Qed.

Lemma Rpower_pos x y : 0 < Rpower x y.
Proof. apply exp_pos. Qed.

(** Runs the expression combinators on operands whose side conditions
    [lra] settles from the context. *)
Ltac py_eval :=
  repeat first
    [ progress cbn [lift2 lift1 lit ret_value bind vadd vsub vmul vdiv vpow
                    items broadcast np_exp np_sqrt np_abs np_sign np_pi vmap
                    vabs nadd nsub nmul nopp nexp nabs npow2 load]
    | rewrite pydiv_ok by lra
    | rewrite pypow_pos by lra
    | rewrite npow_pos by lra
    | rewrite ndiv_fin by lra
    | rewrite nsqrt_fin by lra ].

(** ** compute_flow_coefficient *)

Lemma compute_flow_coefficient_uncertainty beta D Re C u :
  compute_flow_coefficient beta D Re = Ok (C, u) ->
  u = flow_uncertainty beta D Re.
Proof.
  unfold compute_flow_coefficient. intros H.
  repeat (apply bind_Ok in H; destruct H as [? [_ H]]).
  now inversion H.
Qed.

Lemma compute_flow_coefficient_pos beta D re :
  0 < beta < 1 -> 0 < D -> 0 < re ->
  compute_flow_coefficient beta D (Np (Fin re))
  = Ok (Np (Fin (C_real beta D re)), flow_uncertainty beta D (Np (Fin re))).
Proof.
  intros Hb HD Hre.
  assert (H4 : Rpower beta 4 < 1) by (apply Rpower_lt_1; lra).
  assert (HL : 0 < 25.4 / 1000 / D) by (apply Rdiv_lt_0_compat; lra).
  assert (HM : 0 < 2 * (25.4 / 1000 / D) / (1 - beta))
    by (apply Rdiv_lt_0_compat; lra).
  assert (HA : 0 < 19000 * beta / re) by (apply Rdiv_lt_0_compat; nra).
  assert (HB : 0 < 1000000 * beta / re) by (apply Rdiv_lt_0_compat; nra).
  assert (HC : 0 < 1000000 / re) by (apply Rdiv_lt_0_compat; nra).
  unfold compute_flow_coefficient, C_real.
  py_eval. destruct (Rltb D 0.7112); py_eval; reflexivity.
Qed.

Lemma base_uncertainty_pos beta :
  0.5 < beta <= 0.77 -> 0 < base_uncertainty beta.
Proof.
  intros H. unfold base_uncertainty. rcases; cbn [andb]; lra.
Qed.

Lemma base_uncertainty_zero beta : 0.77 < beta -> base_uncertainty beta = 0.
Proof.
  intros H. unfold base_uncertainty. rcases; cbn [andb]; lra.
Qed.

(** C4, as amended.  For [0.5 < beta <= 0.77] and a Reynolds number of mean
    below 10000 the returned uncertainty is the table value plus 0.5/100
    (plus the small-bore term); for [beta > 0.77], where the table value is
    0, the guard [uncertainty > 0] keeps the 0.5/100 out. *)
Theorem reynolds_term_of_uncertainty beta D Re C u :
  compute_flow_coefficient beta D Re = Ok (C, u) ->
  0.5 < beta ->
  nlt (np_mean Re) (Fin 10000) = true ->
  (beta <= 0.77 ->
   u = base_uncertainty beta + 0.5 / 100 + small_bore_uncertainty beta D) /\
  (0.77 < beta -> u = small_bore_uncertainty beta D).
Proof.
  intros H Hb HRe. apply compute_flow_coefficient_uncertainty in H. subst u.
  unfold flow_uncertainty, small_bore_uncertainty. rewrite HRe.
  rewrite (Rltb_true 0.5 beta) by assumption. cbn [andb].
  split; intros Hb'.
  - rewrite (Rltb_true 0 (base_uncertainty beta))
      by (apply base_uncertainty_pos; lra).
    destruct (Rltb D 0.7112); lra.
  - rewrite base_uncertainty_zero by assumption.
    rewrite (Rltb_false 0 0) by lra. destruct (Rltb D 0.7112); lra.
Qed.

Lemma reynolds_term_of_uncertainty_witness :
  flow_uncertainty 0.6 1 (Np (Fin 5000))
  = base_uncertainty 0.6 + 0.5 / 100 + small_bore_uncertainty 0.6 1.
Proof.
  refine (proj1 (reynolds_term_of_uncertainty 0.6 1 (Np (Fin 5000)) _ _
                   (compute_flow_coefficient_pos 0.6 1 5000 _ _ _) _ _) _);
    try lra.
  cbn. apply Rltb_true. lra.
Defined.

(** C4, the claim as stated fails above the table: at [beta = 0.8] with
    [Re = 5000] the returned uncertainty is the table value 0, without the
    0.5/100. *)
Lemma no_reynolds_term_above_table :
  exists C u,
    compute_flow_coefficient 0.8 1 (Np (Fin 5000)) = Ok (C, u) /\
    nlt (np_mean (Np (Fin 5000))) (Fin 10000) = true /\
    base_uncertainty 0.8 = 0 /\ u = 0 /\
    u <> base_uncertainty 0.8 + 0.5 / 100.
Proof.
  do 2 eexists. split.
  { apply compute_flow_coefficient_pos; lra. }
  assert (Hb : base_uncertainty 0.8 = 0) by (apply base_uncertainty_zero; lra).
  assert (Hu : flow_uncertainty 0.8 1 (Np (Fin 5000)) = 0).
  { unfold flow_uncertainty. rewrite Hb.
    rewrite (Rltb_false 0 0) by lra. now rewrite Rltb_false by lra. }
  repeat split; try assumption.
  - cbn. apply Rltb_true. lra.
  - rewrite Hu, Hb. lra.
Qed.

(** C5, what the code does.  For a pipe of 0.1 m the correction of [C]
    scales the diameter by 0.0254 (metres per inch), the term added to the
    uncertainty scales it by 25.4: with [beta = 0.5] the uncertainty is
    [0.5/100 + 0.9 * 0.25 * (2.8 - 0.1/25.4) / 100], and not the value the
    scaling of the [C] correction gives. *)
Theorem small_bore_uncertainty_scaling :
  exists C u,
    compute_flow_coefficient 0.5 0.1 (Np (Fin 100000)) = Ok (C, u) /\
    u = 0.5 / 100 + 0.9 * (0.75 - 0.5) * (2.8 - 0.1 / 25.4) / 100 /\
    u <> 0.5 / 100 + 0.9 * (0.75 - 0.5) * (2.8 - 0.1 / 0.0254) / 100.
Proof.
  do 2 eexists. split.
  { apply compute_flow_coefficient_pos; lra. }
  assert (Hu : flow_uncertainty 0.5 0.1 (Np (Fin 100000))
               = 0.5 / 100 + 0.9 * (0.75 - 0.5) * (2.8 - 0.1 / 25.4) / 100).
  { unfold flow_uncertainty, base_uncertainty.
    rewrite (Rleb_true 0.1 0.5), (Rltb_false 0.5 0.2) by lra. cbn [andb].
    rewrite (Rleb_true 0.2 0.5), (Rleb_true 0.5 0.6) by lra. cbn [andb].
    rewrite (Rltb_true 0 (0.5 / 100)), (Rltb_false 0.5 0.5) by lra. cbn [andb].
    now rewrite Rltb_true by lra. }
  split; [exact Hu |]. rewrite Hu. lra.
Qed.

(** ** The lines before the loop *)

Lemma normalize_T_float t : normalize_T (Py t) = Ok (Py (kelvin t)).
Proof.
  unfold normalize_T, kelvin, Cel2Kel. destruct (Rltb t 100); reflexivity.
Qed.

Lemma rho_real_pos p t ph :
  0 < p -> 0 < t -> 0 < 1 - ph * VAPOR_PRESSURE / p * (1 - Rs / Rd) ->
  0 < rho_real p t ph.
Proof.
  intros Hp Ht Hh. unfold rho_real.
  apply Rdiv_lt_0_compat; [assumption |].
  apply Rmult_lt_0_compat; [| assumption].
  apply Rdiv_lt_0_compat; [unfold Rs; lra | assumption].
Qed.

Lemma mu_real_pos t : 0 < t -> 0 < mu_real t.
Proof.
  intros Ht. unfold mu_real. apply Rdiv_lt_0_compat; [| lra].
  apply Rmult_lt_0_compat; [lra | apply Rpower_pos].
Qed.

Lemma metres_pos unit x : 0 < x -> 0 < metres unit x.
Proof. intros H. unfold metres. destruct (String.eqb unit "mm"); lra. Qed.

Lemma setup_scalar d D unit dpv p t ph kap cg res :
  natural d D dpv p t ph kap ->
  exists adv,
    compute_beta d D unit "flange" = Ok (d / D, adv) /\
    setup {| dp := Py dpv; d_orifice := d; d_pipe := D; length_unit := unit;
             p1 := Py p; T := Py t; phi := ph; kappa := kap;
             C_guess := cg; residuum := res |}
    = Ok (scalar_env d D unit dpv p t ph kap adv).
Proof.
  intros (Hd & Hp & Hp2 & Ht & Hk & Hh).
  destruct (compute_beta_flange_ok d D unit) as [adv Hadv]; [lra | lra |].
  exists adv. split; [assumption |].
  unfold setup. cbn [dp d_orifice d_pipe length_unit p1 T phi kappa].
  rewrite Hadv. cbn [bind].
  assert (Hb : 0 < d / D < 1).
  { split; [apply Rdiv_lt_0_compat; lra |].
    apply (Rmult_lt_reg_r D); [lra |]. unfold Rdiv.
    rewrite Rmult_assoc, Rinv_l by lra. lra. }
  assert (Hm : 0 < metres unit d) by (apply metres_pos; lra).
  assert (Hrho := rho_real_pos p (kelvin t) ph Hp Ht Hh).
  assert (HRf : 0 < Rs / (1 - ph * VAPOR_PRESSURE / p * (1 - Rs / Rd)))
    by (apply Rdiv_lt_0_compat; [unfold Rs; lra | assumption]).
  assert (HRfT : 0 < Rs / (1 - ph * VAPOR_PRESSURE / p * (1 - Rs / Rd)) * kelvin t)
    by (apply Rmult_lt_0_compat; assumption).
  assert (Hq : 0 < (p + dpv) / p) by (apply Rdiv_lt_0_compat; lra).
  assert (Hik : 1 / kap <> 0).
  { unfold Rdiv. rewrite Rmult_1_l. now apply Rinv_neq_0_compat. }
  assert (HRd : Rd <> 0) by (unfold Rd; lra).
  unfold scalar_env, area, metres in *.
  rewrite normalize_T_float.
  unfold compute_density, compute_mu_air, compute_expansion_number.
  unfold rho_real in Hrho.
  destruct (String.eqb unit "mm"); py_eval; reflexivity.
Qed.

Lemma setup_temperature a e :
  setup a = Ok e ->
  normalize_T (T a) = Ok (e_T e) /\
  compute_density (p1 a) (e_T e) (Py (phi a)) (Py VAPOR_PRESSURE)
  = Ok (e_rho_air e) /\
  exists mu_air,
    compute_mu_air (e_T e) = Ok mu_air /\
    vdiv mu_air (e_rho_air e) = Ok (e_nu_air e).
Proof.
  unfold setup. intros H.
  apply bind_Ok in H. destruct H as [[beta adv] [_ H]].
  destruct (String.eqb (length_unit a) "mm");
    (apply bind_Ok in H; destruct H as [A_D [_ H]];
     apply bind_Ok in H; destruct H as [T' [HT H]];
     apply bind_Ok in H; destruct H as [rho [Hrho H]];
     apply bind_Ok in H; destruct H as [mu [Hmu H]];
     apply bind_Ok in H; destruct H as [nu [Hnu H]];
     apply bind_Ok in H; destruct H as [p2 [_ H]];
     apply bind_Ok in H; destruct H as [[eps eps_u] [_ H]];
     inversion H; subst; cbn [e_T e_rho_air e_nu_air];
     repeat split; try assumption;
     exists mu; split; assumption).
Qed.

Lemma natural_example : natural 50 100 5000 200000 20 0 1.4.
Proof.
  unfold natural, kelvin, VAPOR_PRESSURE, Rs, Rd, T0_Kelvin.
  rewrite Rltb_true by lra. repeat split; lra.
Qed.

(** C6, as amended.  A float, and a numpy scalar alike, below 100 is taken
    as degrees Celsius and 273.15 is added, one of 100 or more is kept; an
    array is tested by its mean, and either every entry is shifted or none.
    Density and viscosity are computed from the result. *)
Theorem temperature_conversion a e :
  setup a = Ok e ->
  (forall t, T a = Py t ->
     e_T e = Py (if Rltb t 100 then t + 273.15 else t)) /\
  (forall x, T a = Np x ->
     e_T e = Np (if nlt x (Fin 100) then nadd x (Fin 273.15) else x)) /\
  (forall xs, T a = Arr xs ->
     e_T e = Arr (if nlt (mean_list xs) (Fin 100)
                  then map (fun x => nadd x (Fin 273.15)) xs else xs)) /\
  compute_density (p1 a) (e_T e) (Py (phi a)) (Py VAPOR_PRESSURE)
  = Ok (e_rho_air e) /\
  (exists mu_air,
     compute_mu_air (e_T e) = Ok mu_air /\
     vdiv mu_air (e_rho_air e) = Ok (e_nu_air e)).
Proof.
  intros H. apply setup_temperature in H. destruct H as (HT & Hrho & Hnu).
  repeat split; try assumption.
  - intros t Ht. rewrite Ht, normalize_T_float in HT.
    inversion HT. reflexivity.
  - intros x Hx. rewrite Hx in HT. unfold normalize_T in HT.
    destruct (nlt x (Fin 100)).
    + cbn in HT. inversion HT. reflexivity.
    + inversion HT. reflexivity.
  - intros xs Hxs. rewrite Hxs in HT. unfold normalize_T in HT.
    cbn [np_mean] in HT. destruct (nlt (mean_list xs) (Fin 100)).
    + cbn in HT. inversion HT. reflexivity.
    + inversion HT. reflexivity.
Qed.

(** Runs the lines before the loop of the pipe of 100 mm with the orifice
    of 50 mm on a given temperature. *)
Ltac run_setup :=
  let adv := fresh "adv" in
  let Hadv := fresh "Hadv" in
  destruct (compute_beta_flange_ok 50 100 "mm") as [adv Hadv]; [lra | lra |];
  assert (0 < Rpower (50 / 100) 4 < 1)
    by (split; [apply Rpower_pos | apply Rpower_lt_1; lra]);
  eexists;
  unfold setup; cbn [dp d_orifice d_pipe length_unit p1 T phi kappa];
  rewrite Hadv; cbn [bind String.eqb Ascii.eqb Bool.eqb];
  unfold normalize_T, np_mean, mean_list, nsum;
  cbn [fold_left List.length INR nadd nlt];
  rewrite ?ndiv_fin by lra; cbn [nlt];
  rewrite ?(Rltb_true _ 100), ?(Rltb_false _ 100) by lra;
  unfold Cel2Kel, compute_density, compute_mu_air, compute_expansion_number,
    Rs, Rd, VAPOR_PRESSURE, T0_Kelvin;
  repeat (py_eval; cbn [map map2 List.length Nat.eqb]);
  reflexivity.

Lemma setup_numpy_temperature :
  exists e,
    setup {| dp := Py 5000; d_orifice := 50; d_pipe := 100;
             length_unit := "mm"; p1 := Py 200000; T := Np (Fin 20); phi := 0;
             kappa := 1.4; C_guess := 0.62; residuum := 0.1 |} = Ok e.
Proof. run_setup. Qed.

Lemma setup_array_temperature :
  exists e,
    setup {| dp := Py 5000; d_orifice := 50; d_pipe := 100;
             length_unit := "mm"; p1 := Py 200000;
             T := Arr [Fin 50; Fin 200]; phi := 0;
             kappa := 1.4; C_guess := 0.62; residuum := 0.1 |} = Ok e.
Proof. run_setup. Qed.

Lemma temperature_conversion_witness :
  (exists e,
     setup {| dp := Py 5000; d_orifice := 50; d_pipe := 100;
              length_unit := "mm"; p1 := Py 200000; T := Py 20; phi := 0;
              kappa := 1.4; C_guess := 0.62; residuum := 0.1 |} = Ok e /\
     e_T e = Py (if Rltb 20 100 then 20 + 273.15 else 20)) /\
  (exists e,
     setup {| dp := Py 5000; d_orifice := 50; d_pipe := 100;
              length_unit := "mm"; p1 := Py 200000; T := Np (Fin 20); phi := 0;
              kappa := 1.4; C_guess := 0.62; residuum := 0.1 |} = Ok e /\
     e_T e = Np (if nlt (Fin 20) (Fin 100)
                 then nadd (Fin 20) (Fin 273.15) else Fin 20)) /\
  (exists e,
     setup {| dp := Py 5000; d_orifice := 50; d_pipe := 100;
              length_unit := "mm"; p1 := Py 200000;
              T := Arr [Fin 50; Fin 200]; phi := 0;
              kappa := 1.4; C_guess := 0.62; residuum := 0.1 |} = Ok e /\
     e_T e = Arr (if nlt (mean_list [Fin 50; Fin 200]) (Fin 100)
                  then map (fun x => nadd x (Fin 273.15)) [Fin 50; Fin 200]
                  else [Fin 50; Fin 200])).
Proof.
  split; [| split].
  - destruct (setup_scalar 50 100 "mm" 5000 200000 20 0 1.4 0.62 0.1
                natural_example) as [adv [_ H]].
    eexists. split; [exact H |].
    exact (proj1 (temperature_conversion _ _ H) 20 eq_refl).
  - destruct setup_numpy_temperature as [e H].
    exists e. split; [exact H |].
    exact (proj1 (proj2 (temperature_conversion _ _ H)) _ eq_refl).
  - destruct setup_array_temperature as [e H].
    exists e. split; [exact H |].
    exact (proj1 (proj2 (proj2 (temperature_conversion _ _ H))) _ eq_refl).
Defined.

(** C6, the claim as stated fails for arrays: the mean of [50, 200] is 125,
    so the entry 50, although below 100, is not converted. *)
Lemma array_temperature_below_100_kept :
  normalize_T (Arr [Fin 50; Fin 200]) = Ok (Arr [Fin 50; Fin 200]) /\
  50 < 100.
Proof.
  split; [| lra].
  unfold normalize_T, np_mean, mean_list, nsum.
  cbn [fold_left List.length INR nadd].
  rewrite ndiv_fin by lra. cbn [nlt].
  now rewrite Rltb_false by lra.
Qed.

(** ** The loop body on floats *)

Lemma is_int_false y n : IZR n < y < IZR (n + 1) -> is_int y = false.
Proof.
  intros [H1 H2]. unfold is_int. apply Reqb_false. intros E.
  rewrite E in H1, H2. apply lt_IZR in H1, H2. lia.
Qed.

Lemma npow_neg x y :
  x < 0 -> y <> 0 -> is_int y = false -> npow (Fin x) y = NaN.
Proof.
  intros Hx Hy Hi. unfold npow.
  rewrite Reqb_false by assumption. rewrite Rltb_false by lra.
  rewrite Reqb_false by lra. now rewrite Hi.
Qed.

Lemma compute_flow_coefficient_neg beta D re :
  0 < beta < 1 -> 0 < D -> re < 0 ->
  compute_flow_coefficient beta D (Np (Fin re))
  = Ok (Np NaN, flow_uncertainty beta D (Np (Fin re))).
Proof.
  intros Hb HD Hre.
  assert (H4 : Rpower beta 4 < 1) by (apply Rpower_lt_1; lra).
  assert (HL : 0 < 25.4 / 1000 / D) by (apply Rdiv_lt_0_compat; lra).
  assert (HM : 0 < 2 * (25.4 / 1000 / D) / (1 - beta))
    by (apply Rdiv_lt_0_compat; lra).
  assert (HA : 19000 * beta / re < 0).
  { assert (Hp : 0 < 19000 * beta / - re) by (apply Rdiv_lt_0_compat; lra).
    replace (19000 * beta / re) with (- (19000 * beta / - re))
      by (field; lra).
    lra. }
  assert (HB : 1000000 * beta / re < 0).
  { assert (Hp : 0 < 1000000 * beta / - re) by (apply Rdiv_lt_0_compat; lra).
    replace (1000000 * beta / re) with (- (1000000 * beta / - re))
      by (field; lra).
    lra. }
  assert (HC : 1000000 / re < 0).
  { assert (Hp : 0 < 1000000 / - re) by (apply Rdiv_lt_0_compat; lra).
    replace (1000000 / re) with (- (1000000 / - re)) by (field; lra).
    lra. }
  assert (Hi8 : is_int 0.8 = false) by (apply (is_int_false _ 0); cbn; lra).
  assert (Hi7 : is_int 0.7 = false) by (apply (is_int_false _ 0); cbn; lra).
  assert (Hi3 : is_int 0.3 = false) by (apply (is_int_false _ 0); cbn; lra).
  unfold compute_flow_coefficient.
  py_eval. rewrite !npow_neg by (assumption || lra).
  py_eval. destruct (Rltb D 0.7112); py_eval; reflexivity.
Qed.

Lemma vfr_scalar cg c beta d eps dpv rho :
  real_value cg c -> 0 < beta < 1 -> 0 < d -> 0 < rho ->
  _vfr cg (Py beta) (Py d) (Py eps) (Py dpv) (Py rho)
  = Ok (Np (Fin (vfr_real c beta d eps dpv rho))).
Proof.
  intros Hc Hb Hd Hrho.
  assert (H4 : Rpower beta 4 < 1) by (apply Rpower_lt_1; lra).
  assert (Hs : 0 < sqrt (1 - Rpower beta 4)) by (apply sqrt_lt_R0; lra).
  unfold _vfr, vfr_real, any_negative.
  destruct (Rlt_dec dpv 0) as [Hn | Hn].
  - rewrite (Rltb_true dpv 0) by assumption.
    assert (Hq : 0 <= 2 * Rabs dpv / rho).
    { apply Rlt_le, Rdiv_lt_0_compat; [| assumption].
      pose proof (Rabs_pos_lt dpv). lra. }
    destruct Hc as [-> | ->]; py_eval; cbn [nsign];
      rewrite (Rltb_true dpv 0) by assumption; py_eval; reflexivity.
  - rewrite (Rltb_false dpv 0) by lra.
    assert (Hq : 0 <= 2 * dpv / rho).
    { unfold Rdiv. apply Rmult_le_pos; [lra |].
      apply Rlt_le, Rinv_0_lt_compat. assumption. }
    destruct Hc as [-> | ->]; py_eval; reflexivity.
Qed.

Lemma real_value_add cg c x :
  real_value cg c -> exists v, vadd cg (Py x) = Ok v /\ real_value v (c + x).
Proof.
  intros [-> | ->]; eexists; (split; [reflexivity |]); [left | right]; reflexivity.
Qed.

Lemma real_value_sub cg c x :
  real_value cg c -> exists v, vsub cg (Py x) = Ok v /\ real_value v (c - x).
Proof.
  intros [-> | ->]; eexists; (split; [reflexivity |]); [left | right]; reflexivity.
Qed.

Section BodyOnFloats.

Variables (e : env) (s : loop_state) (A rho nu eps unc dpv c : R).
Hypothesis He : ready e A rho nu eps unc dpv.
Hypothesis Hc : real_value (s_C_guess s) c.

Let q := vfr_real c (e_beta e) (e_d_orifice e) eps dpv rho.
Let re := q / A * e_d_pipe e / nu.

(** Up to the call of [compute_flow_coefficient]. *)
Lemma body_reynolds :
  _vfr (s_C_guess s) (Py (e_beta e)) (Py (e_d_orifice e)) (e_eps e)
    (e_dp e) (e_rho_air e) = Ok (Np (Fin q)) /\
  (u <- (Np (np_nanmean (Np (Fin q))) /! e_A_D e)%py ;;
   compute_reynolds_number u (Py (e_d_pipe e)) (e_nu_air e))
  = Ok (Np (Fin re)).
Proof.
  destruct He as [Hb Hd HD [EA HA] [Erho Hrho] [Enu Hnu] Eeps Eunc Edp].
  rewrite EA, Erho, Enu, Eeps, Edp. split.
  - now apply vfr_scalar.
  - unfold compute_reynolds_number. cbn [np_nanmean]. py_eval. reflexivity.
Qed.

Lemma body_rest C C_err :
  compute_flow_coefficient (e_beta e) (e_d_pipe e) (Np (Fin re))
  = Ok (Np C, C_err) ->
  C_err = flow_uncertainty (e_beta e) (e_d_pipe e) (Np (Fin re)) ->
  body e s
  = Ok (pass e s c eps unc dpv rho re C
          (nabs (match s_C_guess s with
                 | Py x => nsub C (Fin x)
                 | Np x => nsub C x
                 | Arr _ => NaN
                 end))).
Proof.
  intros HC ->. destruct body_reynolds as [Hq Hre].
  unfold body. rewrite Hq. cbn [bind]. fold re in Hre. 
  apply bind_Ok in Hre. destruct Hre as [u [Hu Hre]].
  rewrite Hu. cbn [bind]. rewrite Hre. cbn [bind]. rewrite HC. cbn [bind].
  destruct He as [Hb Hd HD [EA HA] [Erho Hrho] [Enu Hnu] Eeps Eunc Edp].
  rewrite Erho, Eeps, Eunc, Edp.
  set (err := flow_uncertainty (e_beta e) (e_d_pipe e) (Np (Fin re))).
  destruct (real_value_add _ _ err Hc) as [C_hi [E1 H1]].
  destruct (real_value_sub _ _ err Hc) as [C_lo [E2 H2]].
  change (ret_value (s_C_guess s) +! #err)%py with (vadd (s_C_guess s) (Py err)).
  change (ret_value (s_C_guess s) -! #err)%py with (vsub (s_C_guess s) (Py err)).
  rewrite E1, E2. cbn [bind lift2 ret_value lit vadd vsub].
  rewrite (vfr_scalar C_hi (c + err)) by assumption.
  rewrite (vfr_scalar C_lo (c - err)) by assumption.
  cbn [bind]. unfold pass. fold err.
  destruct Hc as [E | E]; rewrite E; reflexivity.
Qed.

End BodyOnFloats.

Section BodyCases.

Variables (e : env) (s : loop_state) (A rho nu eps unc dpv c : R).
Hypothesis He : ready e A rho nu eps unc dpv.
Hypothesis Hc : real_value (s_C_guess s) c.

Let re := vfr_real c (e_beta e) (e_d_orifice e) eps dpv rho
          / A * e_d_pipe e / nu.

(** A positive Reynolds number: the coefficient is finite. *)
Lemma body_pos :
  0 < re ->
  body e s
  = Ok (pass e s c eps unc dpv rho re
          (Fin (C_real (e_beta e) (e_d_pipe e) re))
          (Fin (Rabs (C_real (e_beta e) (e_d_pipe e) re - c)))).
Proof.
  intros Hre.
  rewrite (body_rest e s A rho nu eps unc dpv c He Hc
             (Fin (C_real (e_beta e) (e_d_pipe e) re)) _
             (compute_flow_coefficient_pos _ _ _ (ready_beta _ _ _ _ _ _ _ He)
                (ready_D _ _ _ _ _ _ _ He) Hre) eq_refl).
  destruct Hc as [E | E]; rewrite E; reflexivity.
Qed.

(** A negative Reynolds number: the powers of line 165-167 are invalid,
    the coefficient and the residual are NaN. *)
Lemma body_neg :
  re < 0 ->
  body e s = Ok (pass e s c eps unc dpv rho re NaN NaN).
Proof.
  intros Hre.
  rewrite (body_rest e s A rho nu eps unc dpv c He Hc NaN _
             (compute_flow_coefficient_neg _ _ _ (ready_beta _ _ _ _ _ _ _ He)
                (ready_D _ _ _ _ _ _ _ He) Hre) eq_refl).
  destruct Hc as [E | E]; rewrite E; reflexivity.
Qed.

End BodyCases.

(** ** The flow factor *)

Lemma vfr_real_factor c beta d eps dpv rho :
  0 < beta < 1 ->
  vfr_real c beta d eps dpv rho = c * eps * flow_factor beta d dpv rho.
Proof.
  intros Hb.
  assert (H4 : Rpower beta 4 < 1) by (apply Rpower_lt_1; lra).
  assert (Hs : 0 < sqrt (1 - Rpower beta 4)) by (apply sqrt_lt_R0; lra).
  unfold flow_factor, vfr_real. destruct (Rltb dpv 0); field; lra.
Qed.

Lemma flow_factor_sign beta d dpv rho :
  0 < beta < 1 -> 0 < d -> 0 < rho ->
  (0 < dpv -> 0 < flow_factor beta d dpv rho) /\
  (dpv < 0 -> flow_factor beta d dpv rho < 0) /\
  (0 <= dpv -> 0 <= flow_factor beta d dpv rho).
Proof.
  intros Hb Hd Hrho.
  assert (H4 : Rpower beta 4 < 1) by (apply Rpower_lt_1; lra).
  assert (Hs : 0 < sqrt (1 - Rpower beta 4)) by (apply sqrt_lt_R0; lra).
  assert (Hd2 := Rpower_pos d 2).
  assert (Hpi := PI_RGT_0).
  assert (Hpre : 0 < 1 / sqrt (1 - Rpower beta 4) * 1 * PI / 4 * Rpower d 2).
  { apply Rmult_lt_0_compat; [| assumption].
    apply Rdiv_lt_0_compat; [| lra].
    apply Rmult_lt_0_compat; [| assumption].
    rewrite Rmult_1_r. apply Rdiv_lt_0_compat; lra. }
  unfold flow_factor, vfr_real.
  repeat split; intros Hdp.
  - rewrite Rltb_false by lra.
    apply Rmult_lt_0_compat; [assumption |].
    apply sqrt_lt_R0, Rdiv_lt_0_compat; lra.
  - rewrite Rltb_true by lra.
    assert (0 < sqrt (2 * Rabs dpv / rho)).
    { apply sqrt_lt_R0, Rdiv_lt_0_compat; [| assumption].
      pose proof (Rabs_pos_lt dpv). lra. }
    nra.
  - rewrite Rltb_false by lra.
    apply Rmult_le_pos; [lra |]. apply sqrt_pos.
Qed.

Lemma ready_scalar_env d D unit dpv p t ph kap adv :
  natural d D dpv p t ph kap ->
  ready (scalar_env d D unit dpv p t ph kap adv)
    (area (metres unit d)) (rho_real p (kelvin t) ph)
    (mu_real (kelvin t) / rho_real p (kelvin t) ph)
    (eps_real (d / D) p dpv kap) (eps_uncertainty_real p dpv kap) dpv.
Proof.
  intros (Hd & Hp & Hp2 & Ht & Hk & Hh).
  assert (Hrho := rho_real_pos p (kelvin t) ph Hp Ht Hh).
  assert (Hmu := mu_real_pos (kelvin t) Ht).
  constructor; cbn [scalar_env e_beta e_d_orifice e_d_pipe e_A_D e_rho_air
                    e_nu_air e_eps e_eps_uncertainty e_dp];
    try (split; [reflexivity |]); try reflexivity.
  - split; [apply Rdiv_lt_0_compat; lra |].
    apply (Rmult_lt_reg_r D); [lra |]. unfold Rdiv.
    rewrite Rmult_assoc, Rinv_l by lra. lra.
  - apply metres_pos; lra.
  - apply metres_pos; lra.
  - unfold area. assert (Hpi := PI_RGT_0).
    assert (Hd2 := Rpower_pos (metres unit d) 2).
    apply Rmult_lt_0_compat; [| assumption]. lra.
  - assumption.
  - now apply Rdiv_lt_0_compat.
Qed.

(** ** The loop *)

(** What a pass through the body that does not raise has computed. *)
Lemma body_inv e s s' :
  body e s = Ok s' ->
  exists vfr u Re C C_err C_hi eps_hi vmax C_lo eps_lo vmin r,
    _vfr (s_C_guess s) (Py (e_beta e)) (Py (e_d_orifice e)) (e_eps e)
      (e_dp e) (e_rho_air e) = Ok vfr /\
    vdiv (Np (np_nanmean vfr)) (e_A_D e) = Ok u /\
    compute_reynolds_number u (Py (e_d_pipe e)) (e_nu_air e) = Ok Re /\
    compute_flow_coefficient (e_beta e) (e_d_pipe e) Re = Ok (C, C_err) /\
    vadd (s_C_guess s) (Py C_err) = Ok C_hi /\
    vadd (e_eps e) (e_eps_uncertainty e) = Ok eps_hi /\
    _vfr C_hi (Py (e_beta e)) (Py (e_d_orifice e)) eps_hi
      (e_dp e) (e_rho_air e) = Ok vmax /\
    vsub (s_C_guess s) (Py C_err) = Ok C_lo /\
    vsub (e_eps e) (e_eps_uncertainty e) = Ok eps_lo /\
    _vfr C_lo (Py (e_beta e)) (Py (e_d_orifice e)) eps_lo
      (e_dp e) (e_rho_air e) = Ok vmin /\
    vsub C (s_C_guess s) = Ok r /\
    s' = {| s_vfr_value := Some vfr; s_vfr_value_max := Some vmax;
            s_vfr_value_min := Some vmin; s_Re := Some Re; s_C := Some C;
            s_C_err := Some C_err; s_C_guess := C; s_residuum := vabs r;
            s_j := S (s_j s) |}.
Proof.
  unfold body. intros H.
  apply bind_Ok in H. destruct H as [vfr [H1 H]].
  apply bind_Ok in H. destruct H as [u [H2 H]].
  apply bind_Ok in H. destruct H as [Re [H3 H]].
  apply bind_Ok in H. destruct H as [[C C_err] [H4 H]].
  apply bind_Ok in H. destruct H as [C_hi [H5 H]].
  apply bind_Ok in H. destruct H as [eps_hi [H6 H]].
  apply bind_Ok in H. destruct H as [vmax [H7 H]].
  apply bind_Ok in H. destruct H as [C_lo [H8 H]].
  apply bind_Ok in H. destruct H as [eps_lo [H9 H]].
  apply bind_Ok in H. destruct H as [vmin [H10 H]].
  apply bind_Ok in H. destruct H as [r [H11 H]].
  inversion H. exists vfr, u, Re, C, C_err, C_hi, eps_hi, vmax, C_lo, eps_lo, vmin, r.
  repeat split; assumption.
Qed.

Lemma body_j e s s' : body e s = Ok s' -> s_j s' = S (s_j s).
Proof.
  intros H. apply body_inv in H.
  destruct H as (? & ? & ? & ? & ? & ? & ? & ? & ? & ? & ? & ? & H).
  destruct H as (_ & _ & _ & _ & _ & _ & _ & _ & _ & _ & _ & ->).
  reflexivity.
Qed.

(** The counter bounds the loop: started with [s_j s <= 999], it ends
    within [1000 - s_j s] passes. *)
Lemma while_loop_fuel fuel e s :
  (s_j s <= 999)%nat -> (1000 <= s_j s + fuel)%nat ->
  while_loop fuel e s <> None.
Proof.
  revert s. induction fuel as [| fuel IH]; intros s Hj Hf.
  - lia.
  - cbn [while_loop].
    destruct (ngt (np_mean (s_residuum s)) (Fin eps_res)); [| discriminate].
    destruct (body e s) as [s' | x |] eqn:Hb; try discriminate.
    apply body_j in Hb.
    destruct (999 <? s_j s')%nat eqn:Hc; [discriminate |].
    apply Nat.ltb_ge in Hc. apply IH; lia.
Qed.

(** More fuel does not change a result. *)
Lemma while_loop_more fuel fuel' e s r :
  (fuel <= fuel')%nat ->
  while_loop fuel e s = Some r -> while_loop fuel' e s = Some r.
Proof.
  revert fuel' s. induction fuel as [| fuel IH]; intros fuel' s Hle H.
  - cbn [while_loop] in H. destruct fuel'; cbn [while_loop];
      destruct (ngt (np_mean (s_residuum s)) (Fin eps_res));
      try discriminate; assumption.
  - destruct fuel' as [| fuel']; [lia |].
    cbn [while_loop] in *.
    destruct (ngt (np_mean (s_residuum s)) (Fin eps_res)); [| assumption].
    destruct (body e s) as [s' | x |]; try assumption.
    destruct (999 <? s_j s')%nat; [assumption |].
    apply IH; [lia | assumption].
Qed.

(** What the loop leaves: the counter is at most 1000, the loop left through
    [break] exactly when it is 1000, and after at least one pass every
    variable of the body is bound. *)

Lemma body_bound e s s' : body e s = Ok s' -> bound s'.
Proof.
  intros H. apply body_inv in H.
  destruct H as (? & ? & ? & ? & ? & ? & ? & ? & ? & ? & ? & ? & H).
  destruct H as (_ & _ & _ & _ & _ & _ & _ & _ & _ & _ & _ & ->).
  repeat split; discriminate.
Qed.

Lemma while_loop_counter fuel e s s' capped :
  (s_j s <= 999)%nat ->
  while_loop fuel e s = Some (Ok (s', capped)) ->
  (s_j s <= s_j s' <= 1000)%nat /\
  (capped = true <-> s_j s' = 1000%nat) /\
  (s_j s < s_j s' -> bound s')%nat /\
  (s_j s = s_j s' -> s' = s).
Proof.
  revert s. induction fuel as [| fuel IH]; intros s Hj H; cbn [while_loop] in H.
  - destruct (ngt (np_mean (s_residuum s)) (Fin eps_res)); [discriminate |].
    inversion H; subst. repeat split; try lia; discriminate.
  - destruct (ngt (np_mean (s_residuum s)) (Fin eps_res)).
    + destruct (body e s) as [s1 | x |] eqn:Hb; try discriminate.
      pose proof (body_j _ _ _ Hb) as Hj1.
      pose proof (body_bound _ _ _ Hb) as Hb1.
      destruct (999 <? s_j s1)%nat eqn:Hc.
      * inversion H; subst. apply Nat.ltb_lt in Hc.
        split; [lia |]. split; [split; [lia | reflexivity] |].
        split; [intros _; assumption | intros E; exfalso; lia].
      * apply Nat.ltb_ge in Hc. apply IH in H; [| assumption].
        destruct H as (H1 & H2 & H3 & H4).
        split; [lia |]. split; [exact H2 |]. split.
        -- intros _. destruct (Nat.eq_dec (s_j s1) (s_j s')) as [E | E].
           ++ rewrite (H4 E). assumption.
           ++ apply H3. lia.
        -- intros E. exfalso. lia.
    + inversion H; subst. repeat split; try lia; discriminate.
Qed.

(** ** Termination and the iteration cap *)

Lemma run_enough fuel a :
  (1000 <= fuel)%nat -> run fuel a = Some (compute_volume_flow_rate a).
Proof.
  intros Hf. unfold compute_volume_flow_rate, run.
  destruct (setup a) as [e | x |]; try reflexivity.
  destruct (while_loop 1000 e (initial_state a)) as [r |] eqn:Hw.
  - rewrite (while_loop_more 1000 fuel e _ r Hf Hw).
    destruct r as [[s capped] | x |]; reflexivity.
  - exfalso. revert Hw. apply while_loop_fuel; cbn; lia.
Qed.

Lemma compute_volume_flow_rate_eq a e r :
  setup a = Ok e ->
  while_loop 1000 e (initial_state a) = Some r ->
  compute_volume_flow_rate a
  = match r with
    | Ok (s, capped) => finish e s capped
    | Raise x => Raise x
    | Complex => Complex
    end.
Proof.
  intros He Hw. unfold compute_volume_flow_rate, run. rewrite He, Hw.
  destruct r as [[s capped] | x |]; reflexivity.
Qed.

(** ** A residual seed at or below the tolerance *)

Lemma while_loop_skipped fuel e a :
  residuum a <= 0.0001 ->
  while_loop fuel e (initial_state a) = Some (Ok (initial_state a, false)).
Proof.
  intros H.
  assert (E : ngt (np_mean (s_residuum (initial_state a))) (Fin eps_res) = false).
  { cbn. unfold eps_res. now apply Rltb_false. }
  destruct fuel; cbn [while_loop]; rewrite E; reflexivity.
Qed.

(** C9. With a residual seed of at most 1e-4 the loop body is never
    entered: the loop hands back the initial state, in which [C] is not
    bound.  The call returns no tuple, and once the lines before the loop
    are passed it raises the error of the unbound name. *)
Theorem converged_seed_raises a :
  residuum a <= 0.0001 ->
  (forall fuel e,
     while_loop fuel e (initial_state a) = Some (Ok (initial_state a, false))) /\
  (forall e, setup a = Ok e ->
     compute_volume_flow_rate a = Raise UnboundLocalError) /\
  (forall out, compute_volume_flow_rate a <> Ok out).
Proof.
  intros H.
  assert (Hw := fun fuel e => while_loop_skipped fuel e a H).
  assert (Hr : forall e, setup a = Ok e ->
                 compute_volume_flow_rate a = Raise UnboundLocalError).
  { intros e He. rewrite (compute_volume_flow_rate_eq a e _ He (Hw _ e)).
    reflexivity. }
  repeat split; try assumption.
  intros out. destruct (setup a) as [e | x |] eqn:He.
  - rewrite (Hr e eq_refl). discriminate.
  - unfold compute_volume_flow_rate, run. rewrite He. discriminate.
  - unfold compute_volume_flow_rate, run. rewrite He. discriminate.
Qed.

Lemma converged_seed_raises_witness :
  compute_volume_flow_rate
    {| dp := Py 5000; d_orifice := 50; d_pipe := 100; length_unit := "mm";
       p1 := Py 200000; T := Py 20; phi := 0; kappa := 1.4;
       C_guess := 0.62; residuum := 0.0001 |}
  = Raise UnboundLocalError.
Proof.
  destruct (setup_scalar 50 100 "mm" 5000 200000 20 0 1.4 0.62 0.0001
              natural_example) as [adv [_ H]].
  refine (proj1 (proj2 (converged_seed_raises _ _)) _ H).
  cbn. lra.
Defined.

(** ** Stepping the loop *)

Lemma while_loop_exit fuel e s :
  ngt (np_mean (s_residuum s)) (Fin eps_res) = false ->
  while_loop fuel e s = Some (Ok (s, false)).
Proof. intros H. destruct fuel; cbn [while_loop]; now rewrite H. Qed.

Lemma while_loop_step fuel e s s' :
  ngt (np_mean (s_residuum s)) (Fin eps_res) = true ->
  body e s = Ok s' ->
  while_loop (S fuel) e s
  = if (999 <? s_j s')%nat then Some (Ok (s', true)) else while_loop fuel e s'.
Proof. intros H Hb. cbn [while_loop]. now rewrite H, Hb. Qed.

(** After the loop the floats give a tuple whatever the coefficient is. *)
Lemma finish_float e s capped x dpv vfr vmin vmax :
  0 < e_beta e -> e_dp e = Py dpv ->
  s_C s = Some (Np x) -> s_vfr_value s = Some vfr ->
  s_vfr_value_min s = Some vmin -> s_vfr_value_max s = Some vmax ->
  exists loss,
    finish e s capped
    = Ok {| qv := vfr; qv_min := vmin; qv_max := vmax; dp_loss := loss;
            max_iterations_reached := capped;
            advisories := e_advisories e; final := s |}.
Proof.
  intros Hb Hdp HC Hv Hmin Hmax. unfold finish.
  rewrite HC, Hv, Hmin, Hmax, Hdp. py_eval. eexists. reflexivity.
Qed.

Section OnePass.

Variables (a : args) (e : env) (A rho nu eps unc dpv : R).
Hypothesis Hs : setup a = Ok e.
Hypothesis He : ready e A rho nu eps unc dpv.
Hypothesis Hres : 0.0001 < residuum a.

Let c := C_guess a.
Let re := vfr_real c (e_beta e) (e_d_orifice e) eps dpv rho
          / A * e_d_pipe e / nu.
Let s1 := pass e (initial_state a) c eps unc dpv rho re NaN NaN.

(** A first pass with a negative Reynolds number is the only pass: the
    residual is NaN and the loop test fails. *)
Lemma one_pass_when_reynolds_negative :
  re < 0 ->
  exists loss,
    compute_volume_flow_rate a
    = Ok {| qv := Np (Fin (vfr_real c (e_beta e) (e_d_orifice e) eps dpv rho));
            qv_min := Np (Fin (vfr_real
                       (c - flow_uncertainty (e_beta e) (e_d_pipe e) (Np (Fin re)))
                       (e_beta e) (e_d_orifice e) (eps - unc) dpv rho));
            qv_max := Np (Fin (vfr_real
                       (c + flow_uncertainty (e_beta e) (e_d_pipe e) (Np (Fin re)))
                       (e_beta e) (e_d_orifice e) (eps + unc) dpv rho));
            dp_loss := loss; max_iterations_reached := false;
            advisories := e_advisories e; final := s1 |}.
Proof.
  intros Hre.
  assert (Hc : real_value (s_C_guess (initial_state a)) c) by (left; reflexivity).
  pose proof (body_neg e (initial_state a) A rho nu eps unc dpv c He Hc Hre)
    as Hb.
  assert (Hw : while_loop 1000 e (initial_state a) = Some (Ok (s1, false))).
  { change 1000%nat with (S 999).
    rewrite (while_loop_step 999 e _ s1).
    - change (999 <? s_j s1)%nat with false. cbn match.
      apply while_loop_exit. reflexivity.
    - cbn. apply Rltb_true. unfold eps_res. exact Hres.
    - exact Hb. }
  rewrite (compute_volume_flow_rate_eq a e _ Hs Hw).
  apply (finish_float e s1 false NaN dpv).
  - apply (ready_beta _ _ _ _ _ _ _ He).
  - apply (ready_dp _ _ _ _ _ _ _ He).
  - reflexivity.
  - reflexivity.
  - reflexivity.
  - reflexivity.
Qed.

End OnePass.

(** ** Float arguments: every pass returns *)

(** On floats numpy computes the flow rate whatever the coefficient guess
    has become, also when it is infinite or NaN. *)
Lemma vfr_total cg beta d eps dpv rho :
  size cg = None -> 0 < beta < 1 -> 0 < d -> 0 < rho ->
  exists q, _vfr cg (Py beta) (Py d) (Py eps) (Py dpv) (Py rho) = Ok (Np q).
Proof.
  intros Hs Hb Hd Hrho. destruct cg as [c | x | xs]; [| | discriminate].
  - eexists. apply (vfr_scalar (Py c) c); try assumption. now left.
  - assert (H4 : Rpower beta 4 < 1) by (apply Rpower_lt_1; lra).
    assert (Hq : 0 < sqrt (1 - Rpower beta 4)) by (apply sqrt_lt_R0; lra).
    unfold _vfr, any_negative.
    destruct (Rltb dpv 0); py_eval; eexists; reflexivity.
Qed.

(** The discharge coefficient of a numpy scalar is a numpy scalar. *)
Lemma compute_flow_coefficient_total beta D x :
  0 < beta < 1 -> 0 < D ->
  exists C,
    compute_flow_coefficient beta D (Np x)
    = Ok (Np C, flow_uncertainty beta D (Np x)).
Proof.
  intros Hb HD.
  assert (H4 : Rpower beta 4 < 1) by (apply Rpower_lt_1; lra).
  assert (HL : 0 < 25.4 / 1000 / D) by (apply Rdiv_lt_0_compat; lra).
  assert (HM : 0 < 2 * (25.4 / 1000 / D) / (1 - beta))
    by (apply Rdiv_lt_0_compat; lra).
  unfold compute_flow_coefficient.
  py_eval. destruct (Rltb D 0.7112); py_eval; eexists; reflexivity.
Qed.

Lemma body_total e s A rho nu eps unc dpv :
  ready e A rho nu eps unc dpv -> size (s_C_guess s) = None ->
  exists s' x vfr vmin vmax,
    body e s = Ok s' /\
    s_C s' = Some (Np x) /\ s_C_guess s' = Np x /\
    s_vfr_value s' = Some vfr /\ s_vfr_value_min s' = Some vmin /\
    s_vfr_value_max s' = Some vmax.
Proof.
  intros [Hb Hd HD [EA HA] [Erho Hrho] [Enu Hnu] Eeps Eunc Edp] Hs.
  unfold body. rewrite EA, Erho, Enu, Eeps, Eunc, Edp.
  destruct (vfr_total (s_C_guess s) (e_beta e) (e_d_orifice e) eps dpv rho)
    as [q Hq]; try assumption.
  rewrite Hq. cbn [bind np_nanmean]. unfold compute_reynolds_number.
  py_eval.
  destruct (compute_flow_coefficient_total (e_beta e) (e_d_pipe e)
              (ndiv (nmul (ndiv q (Fin A)) (Fin (e_d_pipe e))) (Fin nu)))
    as [C HC]; try assumption.
  rewrite HC. cbn [bind].
  set (err := flow_uncertainty _ _ _).
  assert (Hhi : exists v, vadd (s_C_guess s) (Py err) = Ok v /\ size v = None)
    by (destruct (s_C_guess s); [| | discriminate]; eexists; split;
        reflexivity).
  assert (Hlo : exists v, vsub (s_C_guess s) (Py err) = Ok v /\ size v = None)
    by (destruct (s_C_guess s); [| | discriminate]; eexists; split;
        reflexivity).
  assert (Hr : exists r, vsub (Np C) (s_C_guess s) = Ok (Np r))
    by (destruct (s_C_guess s); [| | discriminate]; eexists; reflexivity).
  destruct Hhi as (C_hi & Ehi & Shi), Hlo as (C_lo & Elo & Slo), Hr as [r Er].
  destruct (vfr_total C_hi (e_beta e) (e_d_orifice e) (eps + unc) dpv rho)
    as [qmax Hmax]; try assumption.
  destruct (vfr_total C_lo (e_beta e) (e_d_orifice e) (eps - unc) dpv rho)
    as [qmin Hmin]; try assumption.
  rewrite Ehi. cbn [bind]. rewrite Hmax. cbn [bind].
  rewrite Elo. cbn [bind]. rewrite Hmin. cbn [bind].
  rewrite Er. cbn [bind].
  eexists _, C, (Np q), (Np qmin), (Np qmax). repeat split.
Qed.

(** Started on floats the loop ends in a state that a pass has left, or
    where it began. *)
Lemma while_loop_total e A rho nu eps unc dpv fuel s :
  ready e A rho nu eps unc dpv -> size (s_C_guess s) = None ->
  (s_j s <= 999)%nat -> (1000 <= s_j s + fuel)%nat ->
  exists s' capped,
    while_loop fuel e s = Some (Ok (s', capped)) /\
    (s' = s \/
     exists x vfr vmin vmax,
       s_C s' = Some (Np x) /\ s_vfr_value s' = Some vfr /\
       s_vfr_value_min s' = Some vmin /\ s_vfr_value_max s' = Some vmax).
Proof.
  intros He. revert s. induction fuel as [| fuel IH]; intros s Hs Hj Hf.
  - lia.
  - cbn [while_loop].
    destruct (ngt (np_mean (s_residuum s)) (Fin eps_res));
      [| exists s, false; split; [reflexivity | now left]].
    destruct (body_total e s A rho nu eps unc dpv He Hs)
      as (s1 & x & vfr & vmin & vmax & Hb & HC & Hg & Hv & Hmin & Hmax).
    rewrite Hb. pose proof (body_j _ _ _ Hb) as Hj1.
    destruct (999 <? s_j s1)%nat eqn:Hc.
    + exists s1, true. split; [reflexivity |]. right.
      exists x, vfr, vmin, vmax. repeat split; assumption.
    + apply Nat.ltb_ge in Hc.
      destruct (IH s1) as (s' & capped & Hw & Hs');
        [rewrite Hg; reflexivity | lia | lia |].
      exists s', capped. split; [assumption |].
      destruct Hs' as [-> | Hs']; [| right; assumption].
      right. exists x, vfr, vmin, vmax. repeat split; assumption.
Qed.

(** A call on floats in the domain of the lines before the loop, with a
    residual seed above the tolerance, returns its tuple: for every length
    unit, every coefficient guess, and either sign of the pressure
    difference. *)
Lemma compute_volume_flow_rate_total d D unit dpv p t ph kap cg res :
  natural d D dpv p t ph kap -> eps_res < res ->
  exists out,
    compute_volume_flow_rate
      {| dp := Py dpv; d_orifice := d; d_pipe := D; length_unit := unit;
         p1 := Py p; T := Py t; phi := ph; kappa := kap;
         C_guess := cg; residuum := res |} = Ok out.
Proof.
  intros Hn Hres.
  destruct (setup_scalar d D unit dpv p t ph kap cg res Hn) as [adv [_ Hs]].
  pose proof (ready_scalar_env d D unit dpv p t ph kap adv Hn) as He.
  set (a := {| dp := Py dpv; d_orifice := d; d_pipe := D;
               length_unit := unit; p1 := Py p; T := Py t; phi := ph;
               kappa := kap; C_guess := cg; residuum := res |}) in *.
  set (e := scalar_env d D unit dpv p t ph kap adv) in *.
  remember (initial_state a) as s0 eqn:Es0.
  assert (Hg : size (s_C_guess s0) = None) by (subst s0; reflexivity).
  assert (Hj : s_j s0 = 0%nat) by (subst s0; reflexivity).
  assert (Hr : ngt (np_mean (s_residuum s0)) (Fin eps_res) = true).
  { subst s0. cbn. apply Rltb_true. exact Hres. }
  destruct (body_total e s0 _ _ _ _ _ _ He Hg)
    as (s1 & x & vfr & vmin & vmax & Hb & HC & Hg1 & Hv & Hmin & Hmax).
  pose proof (body_j _ _ _ Hb) as Hj1.
  destruct (while_loop_total e _ _ _ _ _ _ 999 s1 He) as (s' & capped & Hw & Hs');
    [rewrite Hg1; reflexivity | lia | lia |].
  assert (Hw0 : while_loop 1000 e s0 = Some (Ok (s', capped))).
  { rewrite (while_loop_step 999 e s0 s1 Hr Hb).
    replace (999 <? s_j s1)%nat with false
      by (symmetry; apply Nat.ltb_ge; lia).
    exact Hw. }
  rewrite Es0 in Hw0.
  rewrite (compute_volume_flow_rate_eq a e _ Hs Hw0).
  assert (Hfin : exists x vfr vmin vmax,
             s_C s' = Some (Np x) /\ s_vfr_value s' = Some vfr /\
             s_vfr_value_min s' = Some vmin /\ s_vfr_value_max s' = Some vmax).
  { destruct Hs' as [-> | Hs']; [| assumption].
    exists x, vfr, vmin, vmax. repeat split; assumption. }
  destruct Hfin as (x' & vfr' & vmin' & vmax' & HC' & Hv' & Hmin' & Hmax').
  destruct (finish_float e s' capped x' dpv vfr' vmin' vmax')
    as [loss Hloss]; try assumption; try reflexivity.
  - apply (ready_beta _ _ _ _ _ _ _ He).
  - eexists. exact Hloss.
Qed.

(** ** The length unit *)

Lemma compute_beta_unit d D u1 u2 mounting_type :
  rmap fst (compute_beta d D u1 mounting_type)
  = rmap fst (compute_beta d D u2 mounting_type).
Proof.
  unfold compute_beta.
  destruct (Rleb D d); [reflexivity |].
  destruct (pydiv d D) as [beta | x |]; cbn [bind]; try reflexivity.
  destruct (String.eqb u1 "m"), (String.eqb u2 "m");
    destruct (negb (String.eqb mounting_type "flange")); try reflexivity;
    repeat match goal with
      | |- context [if ?c then _ else _] => destruct c
      end; reflexivity.
Qed.

Lemma compute_beta_not_metres d D unit mounting_type :
  unit <> "m"%string ->
  compute_beta d D unit mounting_type = compute_beta d D "mm" mounting_type.
Proof.
  intros H. apply String.eqb_neq in H. unfold compute_beta. rewrite H.
  reflexivity.
Qed.

Lemma while_loop_advisories fuel e adv s :
  while_loop fuel (with_advisories e adv) s = while_loop fuel e s.
Proof.
  revert s. induction fuel as [| fuel IH]; intros s; cbn [while_loop].
  - reflexivity.
  - destruct (ngt (np_mean (s_residuum s)) (Fin eps_res)); [| reflexivity].
    change (body (with_advisories e adv) s) with (body e s).
    destruct (body e s) as [s' | x |]; try reflexivity.
    destruct (999 <? s_j s')%nat; [reflexivity | apply IH].
Qed.

Lemma finish_advisories e adv s capped :
  rmap returned (finish (with_advisories e adv) s capped)
  = rmap returned (finish e s capped).
Proof.
  unfold finish. cbn [with_advisories e_beta e_dp e_advisories].
  repeat match goal with
    | |- context [bind ?m _] => destruct m; cbn [bind rmap]
    end; reflexivity.
Qed.

Lemma setup_unit a u1 u2 :
  String.eqb u1 "mm" = false -> String.eqb u2 "mm" = false ->
  rmap (fun e => with_advisories e []) (setup (with_unit a u1))
  = rmap (fun e => with_advisories e []) (setup (with_unit a u2)).
Proof.
  intros H1 H2. unfold setup.
  cbn [with_unit dp d_orifice d_pipe length_unit p1 T phi kappa].
  rewrite H1, H2.
  pose proof (compute_beta_unit (d_orifice a) (d_pipe a) u1 u2 "flange") as Hb.
  destruct (compute_beta (d_orifice a) (d_pipe a) u1 "flange") as [[b1 adv1] | x1 |];
    destruct (compute_beta (d_orifice a) (d_pipe a) u2 "flange") as [[b2 adv2] | x2 |];
    cbn [rmap fst] in Hb; try discriminate; cbn [bind rmap];
    try (inversion Hb; subst; reflexivity).
  inversion Hb; subst b2.
  repeat match goal with
    | |- context [bind ?m _] =>
        destruct m as [? | ? |]; cbn [bind rmap]
    end; try reflexivity.
  all: repeat match goal with
    | |- context [match ?p with pair _ _ => _ end] => destruct p
    end; cbn [bind rmap]; try reflexivity.
Qed.

Lemma setup_unit_diameters a unit e :
  String.eqb unit "mm" = false ->
  setup (with_unit a unit) = Ok e ->
  e_d_orifice e = d_orifice a /\ e_d_pipe e = d_pipe a.
Proof.
  intros Hu H. unfold setup in H.
  cbn [with_unit dp d_orifice d_pipe length_unit p1 T phi kappa] in H.
  rewrite Hu in H.
  apply bind_Ok in H. destruct H as [[beta adv] [_ H]].
  apply bind_Ok in H; destruct H as [A_D [_ H]].
  apply bind_Ok in H; destruct H as [T' [_ H]].
  apply bind_Ok in H; destruct H as [rho [_ H]].
  apply bind_Ok in H; destruct H as [mu [_ H]].
  apply bind_Ok in H; destruct H as [nu [_ H]].
  apply bind_Ok in H; destruct H as [p2 [_ H]].
  apply bind_Ok in H; destruct H as [[eps eps_u] [_ H]].
  inversion H; subst. split; reflexivity.
Qed.

Lemma compute_volume_flow_rate_unit a u1 u2 :
  String.eqb u1 "mm" = false -> String.eqb u2 "mm" = false ->
  rmap returned (compute_volume_flow_rate (with_unit a u1))
  = rmap returned (compute_volume_flow_rate (with_unit a u2)).
Proof.
  intros H1 H2. pose proof (setup_unit a u1 u2 H1 H2) as Hs.
  unfold compute_volume_flow_rate, run.
  change (initial_state (with_unit a u1)) with (initial_state a).
  change (initial_state (with_unit a u2)) with (initial_state a).
  destruct (setup (with_unit a u1)) as [e1 | x1 |];
    destruct (setup (with_unit a u2)) as [e2 | x2 |];
    cbn [rmap] in Hs; try discriminate; try (inversion Hs; reflexivity);
    try reflexivity.
  assert (He : with_advisories e1 [] = with_advisories e2 [])
    by congruence.
  rewrite <- (while_loop_advisories 1000 e1 []).
  rewrite <- (while_loop_advisories 1000 e2 []).
  rewrite He.
  destruct (while_loop 1000 (with_advisories e2 []) (initial_state a))
    as [[[s capped] | x |] |]; try reflexivity.
  rewrite <- (finish_advisories e1 []), <- (finish_advisories e2 []).
  now rewrite He.
Qed.

(** C10. A length unit other than "mm" and "m" is not rejected: a call on
    floats in the domain of the computation returns its tuple under every
    such unit.  The advisory checks of [compute_beta] read the diameters as
    they read millimetres, the flow computation takes the same numbers
    unconverted, as it takes metres, and the returned tuple is that of the
    unit "m". *)
Theorem other_length_unit a unit :
  unit <> "mm"%string -> unit <> "m"%string ->
  compute_beta (d_orifice a) (d_pipe a) unit "flange"
  = compute_beta (d_orifice a) (d_pipe a) "mm" "flange" /\
  (forall e, setup (with_unit a unit) = Ok e ->
     e_d_orifice e = d_orifice a /\ e_d_pipe e = d_pipe a) /\
  rmap returned (compute_volume_flow_rate (with_unit a unit))
  = rmap returned (compute_volume_flow_rate (with_unit a "m")) /\
  (forall dpv p t,
     dp a = Py dpv -> p1 a = Py p -> T a = Py t ->
     natural (d_orifice a) (d_pipe a) dpv p t (phi a) (kappa a) ->
     eps_res < residuum a ->
     exists out out_m,
       compute_volume_flow_rate (with_unit a unit) = Ok out /\
       compute_volume_flow_rate (with_unit a "m") = Ok out_m /\
       returned out = returned out_m).
Proof.
  intros Hmm Hm. apply String.eqb_neq in Hmm.
  pose proof (compute_volume_flow_rate_unit a unit "m" Hmm eq_refl) as Hu.
  split; [now apply compute_beta_not_metres |]. split; [| split].
  - intros e. now apply setup_unit_diameters.
  - exact Hu.
  - intros dpv p t Edp Ep ET Hn Hres.
    destruct (compute_volume_flow_rate_total (d_orifice a) (d_pipe a) unit
                dpv p t (phi a) (kappa a) (C_guess a) (residuum a) Hn Hres)
      as [out Hout].
    destruct (compute_volume_flow_rate_total (d_orifice a) (d_pipe a) "m"
                dpv p t (phi a) (kappa a) (C_guess a) (residuum a) Hn Hres)
      as [out_m Hout_m].
    unfold with_unit in *. rewrite Edp, Ep, ET in *.
    rewrite Hout, Hout_m in Hu. cbn [rmap] in Hu.
    exists out, out_m. repeat split; try assumption. congruence.
Qed.

Lemma other_length_unit_witness :
  compute_beta 50 100 "cm" "flange" = compute_beta 50 100 "mm" "flange" /\
  exists out out_m,
    compute_volume_flow_rate
      {| dp := Py 5000; d_orifice := 50; d_pipe := 100; length_unit := "cm";
         p1 := Py 200000; T := Py 20; phi := 0; kappa := 1.4;
         C_guess := 0.62; residuum := 0.1 |} = Ok out /\
    compute_volume_flow_rate
      {| dp := Py 5000; d_orifice := 50; d_pipe := 100; length_unit := "m";
         p1 := Py 200000; T := Py 20; phi := 0; kappa := 1.4;
         C_guess := 0.62; residuum := 0.1 |} = Ok out_m /\
    returned out = returned out_m.
Proof.
  pose proof (other_length_unit
    {| dp := Py 5000; d_orifice := 50; d_pipe := 100; length_unit := "cm";
       p1 := Py 200000; T := Py 20; phi := 0; kappa := 1.4;
       C_guess := 0.62; residuum := 0.1 |} "cm"
    ltac:(discriminate) ltac:(discriminate)) as (H1 & _ & _ & H4).
  split; [exact H1 |].
  apply (H4 5000 200000 20 eq_refl eq_refl eq_refl natural_example).
  unfold eps_res. cbn [residuum]. lra.
Defined.

(** ** The order of the returned flow rates *)

Lemma Rpower_gt_1_neg x y : 0 < x < 1 -> y < 0 -> 1 < Rpower x y.
Proof.
  intros [H0 H1] Hy. unfold Rpower.
  rewrite <- exp_0. apply exp_increasing.
  assert (ln x < 0) by (rewrite <- ln_1; now apply ln_increasing).
  nra.
Qed.

Lemma natural_example_call dpv kap :
  -200000 < dpv -> kap <> 0 -> natural 50 100 dpv 200000 293.15 0 kap.
Proof.
  intros Hdp Hk. unfold natural, kelvin, VAPOR_PRESSURE, Rs, Rd.
  rewrite Rltb_false by lra. repeat split; lra.
Qed.

Lemma example_uncertainty re :
  flow_uncertainty (50 / 100) (metres "mm" 100) (Np (Fin re))
  = 0.5 / 100 + 0.9 * (0.75 - 50 / 100) * (2.8 - 100 / 1000 / 25.4) / 100.
Proof.
  unfold flow_uncertainty, base_uncertainty, metres. cbn [String.eqb Ascii.eqb Bool.eqb].
  rewrite (Rleb_true 0.1), (Rltb_false (50 / 100) 0.2) by lra. cbn [andb].
  rewrite (Rleb_true 0.2), (Rleb_true (50 / 100) 0.6) by lra. cbn [andb].
  rewrite (Rltb_true 0 (0.5 / 100)), (Rltb_false 0.5 (50 / 100)) by lra.
  cbn [andb]. now rewrite Rltb_true by lra.
Qed.


(** ** A loop that keeps the coefficient above a bound *)

Section BoundedCoefficient.

Variables (e : env) (A rho nu eps unc dpv lo : R).
Hypothesis He : ready e A rho nu eps unc dpv.

(** From a guess of at least [lo] the Reynolds number is positive and the
    new coefficient is at least [lo] again. *)
Hypothesis Hstep :
  forall c, lo <= c ->
    0 < reynolds e A rho nu eps dpv c /\
    lo <= C_real (e_beta e) (e_d_pipe e) (reynolds e A rho nu eps dpv c).

Lemma body_above s :
  above lo s ->
  exists s', body e s = Ok s' /\ above lo s' /\
             passed e A rho nu eps unc dpv lo s'.
Proof.
  intros (c & Hc & Hlo). destruct (Hstep c Hlo) as [Hre HC].
  pose proof (body_pos e s A rho nu eps unc dpv c He Hc Hre) as Hb.
  eexists. split; [exact Hb |]. split.
  - eexists. split; [right; reflexivity | exact HC].
  - exists s, c. do 2 eexists. split; [exact Hlo |].
    split; [exact Hc |]. split; [exact Hb | reflexivity].
Qed.

Lemma while_loop_above fuel s r :
  above lo s ->
  while_loop fuel e s = Some r ->
  exists s' capped,
    r = Ok (s', capped) /\ (s' = s \/ passed e A rho nu eps unc dpv lo s').
Proof.
  revert s. induction fuel as [| fuel IH]; intros s Hs H; cbn [while_loop] in H.
  - destruct (ngt (np_mean (s_residuum s)) (Fin eps_res)); [discriminate |].
    inversion H. eauto.
  - destruct (ngt (np_mean (s_residuum s)) (Fin eps_res)).
    + destruct (body_above s Hs) as (s1 & Hb & Ha & Hp).
      rewrite Hb in H. destruct (999 <? s_j s1)%nat.
      * inversion H. eauto.
      * destruct (IH s1 Ha H) as (s' & capped & Hr & [-> | Hp']); eauto.
    + inversion H. eauto.
Qed.

End BoundedCoefficient.

(** ** Bounds on the example call *)

Lemma Rpower_le_1 x y : 0 < x <= 1 -> 0 <= y -> Rpower x y <= 1.
Proof.
  intros [H0 H1] Hy. unfold Rpower. rewrite <- exp_0.
  destruct H1 as [H1 | ->].
  - assert (ln x < 0) by (rewrite <- ln_1; now apply ln_increasing).
    destruct (Req_dec_T (y * ln x) 0) as [-> | Hn]; [lra |].
    apply Rlt_le, exp_increasing. nra.
  - rewrite ln_1, Rmult_0_r. lra.
Qed.

Lemma Rpower_ge_1 x y : 1 <= x -> 0 <= y -> 1 <= Rpower x y.
Proof.
  intros Hx Hy. rewrite <- (Rpower_O x) by lra.
  apply Rle_Rpower; assumption.
Qed.

Lemma Rpower_4 x : 0 < x -> Rpower x 4 = x ^ 4.
Proof.
  intros Hx. replace 4 with (INR 4) by (simpl; lra). now apply Rpower_pow.
Qed.

Lemma Rpower_8 x : 0 < x -> Rpower x 8 = x ^ 8.
Proof.
  intros Hx. replace 8 with (INR 8) by (simpl; lra). now apply Rpower_pow.
Qed.

Lemma Rpower_2 x : 0 < x -> Rpower x 2 = x ^ 2.
Proof.
  intros Hx. replace 2 with (INR 2) by (simpl; lra). now apply Rpower_pow.
Qed.

Lemma exp_neg_bounds x : x < 0 -> 0 < exp x < 1.
Proof.
  intros Hx. split; [apply exp_pos |].
  rewrite <- exp_0. now apply exp_increasing.
Qed.

(** For the pipe of 100 mm with the orifice of 50 mm the correlation stays
    above 0.55 from a Reynolds number of 9500 on. *)
Lemma C_real_example re :
  9500 <= re -> 0.55 <= C_real (50 / 100) (100 / 1000) re.
Proof.
  intros Hre. unfold C_real. rewrite Rltb_true by lra.
  rewrite (Rpower_2 (50 / 100)), (Rpower_4 (50 / 100)), (Rpower_8 (50 / 100))
    by lra.
  assert (HA : 0 < Rpower (19000 * (50 / 100) / re) 0.8 <= 1).
  { split; [apply Rpower_pos |]. apply Rpower_le_1; [| lra]. split.
    - apply Rdiv_lt_0_compat; lra.
    - apply (Rmult_le_reg_r re); [lra |]. unfold Rdiv.
      rewrite Rmult_assoc, Rinv_l by lra. lra. }
  set (A := Rpower (19000 * (50 / 100) / re) 0.8) in *.
  assert (H4 := Rpower_pos (1000000 * (50 / 100) / re) 0.7).
  set (t4 := Rpower (1000000 * (50 / 100) / re) 0.7) in *.
  assert (H5a := Rpower_pos (50 / 100) 3.5).
  assert (H5b := Rpower_pos (1000000 / re) 0.3).
  assert (H5 : 0 <= (0.0188 + 0.0063 * A) * Rpower (50 / 100) 3.5
                    * Rpower (1000000 / re) 0.3).
  { apply Rmult_le_pos; [apply Rmult_le_pos |]; lra. }
  set (t5 := (0.0188 + 0.0063 * A) * Rpower (50 / 100) 3.5
             * Rpower (1000000 / re) 0.3) in *.
  assert (E1 := exp_neg_bounds (-10 * (25.4 / 1000 / (100 / 1000))) ltac:(lra)).
  assert (E2 := exp_neg_bounds (-7 * (25.4 / 1000 / (100 / 1000))) ltac:(lra)).
  set (x1 := exp (-10 * (25.4 / 1000 / (100 / 1000)))) in *.
  set (x2 := exp (-7 * (25.4 / 1000 / (100 / 1000)))) in *.
  assert (HQ : (50 / 100) ^ 4 / (1 - (50 / 100) ^ 4) = 1 / 15) by (simpl; lra).
  rewrite HQ.
  assert (H6 : - 0.08 / 15 <= (0.043 + 0.080 * x1 - 0.123 * x2) * (1 - 0.11 * A) * (1 / 15)).
  { set (B := 0.043 + 0.080 * x1 - 0.123 * x2).
    assert (HB : - 0.08 <= B) by (unfold B; lra).
    destruct (Rle_dec 0 B); nra. }
  set (t6 := (0.043 + 0.080 * x1 - 0.123 * x2) * (1 - 0.11 * A) * (1 / 15)) in *.
  set (M := 2 * (25.4 / 1000 / (100 / 1000)) / (1 - 50 / 100)).
  assert (HM : M = 1.016) by (unfold M; lra).
  assert (Hm := Rpower_pos M 1.1).
  assert (Hb : 0 < Rpower (50 / 100) 1.3 <= 1).
  { split; [apply Rpower_pos | apply Rpower_le_1; lra]. }
  assert (H7 : (M - 0.8 * Rpower M 1.1) * Rpower (50 / 100) 1.3 <= 1.016).
  { destruct (Rle_dec 0 (M - 0.8 * Rpower M 1.1)); nra. }
  set (t7 := (M - 0.8 * Rpower M 1.1) * Rpower (50 / 100) 1.3) in *.
  replace (0.031 * (M - 0.8 * Rpower M 1.1) * Rpower (50 / 100) 1.3)
    with (0.031 * t7) by (unfold t7; ring).
  simpl pow. lra.
Qed.

Lemma flow_factor_over_area beta d dpv rho :
  0 < beta < 1 -> 0 <= dpv ->
  flow_factor beta d dpv rho / area d
  = sqrt (2 * dpv / rho) / sqrt (1 - Rpower beta 4).
Proof.
  intros Hb Hdp.
  assert (H4 : Rpower beta 4 < 1) by (apply Rpower_lt_1; lra).
  assert (Hs : 0 < sqrt (1 - Rpower beta 4)) by (apply sqrt_lt_R0; lra).
  assert (Hd2 := Rpower_pos d 2). assert (Hpi := PI_RGT_0).
  unfold flow_factor, vfr_real, area. rewrite Rltb_false by lra.
  field. repeat split; lra.
Qed.

Lemma kelvin_example : kelvin 293.15 = 293.15.
Proof. unfold kelvin. now rewrite Rltb_false by lra. Qed.

Lemma rho_example : 2 < rho_real 200000 293.15 0 < 3.
Proof.
  unfold rho_real, Rs, Rd, VAPOR_PRESSURE.
  replace (1 - 0 * 2300 / 200000 * (1 - 287.058 / 461.523)) with 1 by lra.
  replace (287.058 / 1 * 293.15) with 84151.0527 by lra.
  lra.
Qed.

Lemma mu_example : 0 < mu_real 293.15 <= 0.00032.
Proof.
  split; [apply mu_real_pos; lra |].
  unfold mu_real.
  assert (H : Rpower 293.15 1.5 <= Rpower 293.15 2)
    by (apply Rle_Rpower; lra).
  rewrite Rpower_2 in H by lra. simpl pow in H.
  assert (Hp := Rpower_pos 293.15 1.5).
  replace (293.15 + 110.4) with 403.55 by lra.
  lra.
Qed.

Lemma nu_example :
  0 < mu_real 293.15 / rho_real 200000 293.15 0 <= 0.00016.
Proof.
  destruct mu_example as [Hm0 Hm]. destruct rho_example as [Hr0 Hr].
  split; [apply Rdiv_lt_0_compat; lra |].
  apply (Rmult_le_reg_r (rho_real 200000 293.15 0)); [lra |].
  unfold Rdiv. rewrite Rmult_assoc, Rinv_l by lra. nra.
Qed.

Lemma eps_example dpv kap :
  0 <= dpv -> 0 < kap -> 1 <= eps_real (50 / 100) 200000 dpv kap.
Proof.
  intros Hdp Hk. unfold eps_real.
  assert (H1 : 1 <= Rpower ((200000 + dpv) / 200000) (1 / kap)).
  { apply Rpower_ge_1.
    - apply (Rmult_le_reg_r 200000); [lra |]. unfold Rdiv.
      rewrite Rmult_assoc, Rinv_l by lra. lra.
    - apply Rlt_le, Rdiv_lt_0_compat; lra. }
  assert (H4 := Rpower_pos (50 / 100) 4).
  assert (H8 := Rpower_pos (50 / 100) 8).
  nra.
Qed.

Lemma example_reynolds_bound dpv kap c :
  25000 <= dpv -> 0 < kap -> 0.55 <= c ->
  9500 <= example_reynolds dpv kap c.
Proof.
  intros Hdp Hk Hc. unfold example_reynolds. rewrite kelvin_example.
  pose proof (eps_example dpv kap ltac:(lra) Hk) as Heps.
  destruct rho_example as [Hr0 Hr]. destruct nu_example as [Hn0 Hn].
  set (eps := eps_real (50 / 100) 200000 dpv kap) in *.
  set (rho := rho_real 200000 293.15 0) in *.
  set (nu := mu_real 293.15 / rho) in *.
  assert (Hb : 0 < 50 / 100 < 1) by lra.
  rewrite vfr_real_factor by assumption.
  replace (c * eps * flow_factor (50 / 100) (metres "mm" 50) dpv rho
           / area (metres "mm" 50) * metres "mm" 100 / nu)
    with (c * eps * (flow_factor (50 / 100) (metres "mm" 50) dpv rho
                     / area (metres "mm" 50)) * (metres "mm" 100 / nu))
    by (unfold Rdiv; ring).
  rewrite flow_factor_over_area by lra.
  assert (H4 : 0 < Rpower (50 / 100) 4 < 1).
  { split; [apply Rpower_pos | apply Rpower_lt_1; lra]. }
  assert (HS : 0 < sqrt (1 - Rpower (50 / 100) 4) <= 1).
  { split; [apply sqrt_lt_R0; lra |].
    rewrite <- sqrt_1 at 2. apply sqrt_le_1_alt. lra. }
  assert (Hq : 100 <= sqrt (2 * dpv / rho)).
  { replace 100 with (sqrt (100 * 100)) by (apply sqrt_square; lra).
    apply sqrt_le_1_alt.
    apply (Rmult_le_reg_r rho); [lra |].
    replace (2 * dpv / rho * rho) with (2 * dpv) by (field; lra). nra. }
  assert (HX : 100 <= sqrt (2 * dpv / rho) / sqrt (1 - Rpower (50 / 100) 4)).
  { apply (Rmult_le_reg_r (sqrt (1 - Rpower (50 / 100) 4))); [lra |].
    unfold Rdiv. rewrite Rmult_assoc, Rinv_l by lra. nra. }
  assert (HY : 625 <= metres "mm" 100 / nu).
  { unfold metres. cbn [String.eqb Ascii.eqb Bool.eqb].
    apply (Rmult_le_reg_r nu); [lra |]. unfold Rdiv.
    rewrite Rmult_assoc, Rinv_l by lra. lra. }
  set (X := sqrt (2 * dpv / rho) / sqrt (1 - Rpower (50 / 100) 4)) in *.
  set (Y := metres "mm" 100 / nu) in *.
  assert (H1 : 0.55 <= c * eps) by nra.
  assert (H2 : 55 <= c * eps * X) by nra.
  nra.
Qed.

(** ** The example call with a positive pressure difference *)

Section ExampleRun.

Variables dpv kap : R.
Hypothesis Hdp : 25000 <= dpv.
Hypothesis Hk : 0 < kap.

Let eps := eps_real (50 / 100) 200000 dpv kap.
Let unc := eps_uncertainty_real 200000 dpv kap.
Let rho := rho_real 200000 (kelvin 293.15) 0.

(** The call returns, and what it returns was computed by a pass that
    started from a coefficient guess of at least 0.55. *)
Lemma example_run :
  exists adv s c C r loss capped,
    let e := scalar_env 50 100 "mm" dpv 200000 293.15 0 kap adv in
    let s' := pass e s c eps unc dpv rho (example_reynolds dpv kap c) (Fin C) r in
    setup (example_call dpv kap) = Ok e /\
    0.55 <= c /\ real_value (s_C_guess s) c /\ body e s = Ok s' /\
    compute_volume_flow_rate (example_call dpv kap)
    = Ok {| qv := Np (Fin (vfr_real c (50 / 100) (metres "mm" 50) eps dpv rho));
            qv_min := Np (Fin (vfr_real
               (c - flow_uncertainty (50 / 100) (metres "mm" 100)
                      (Np (Fin (example_reynolds dpv kap c))))
               (50 / 100) (metres "mm" 50) (eps - unc) dpv rho));
            qv_max := Np (Fin (vfr_real
               (c + flow_uncertainty (50 / 100) (metres "mm" 100)
                      (Np (Fin (example_reynolds dpv kap c))))
               (50 / 100) (metres "mm" 50) (eps + unc) dpv rho));
            dp_loss := loss; max_iterations_reached := capped;
            advisories := adv; final := s' |}.
Proof.
  assert (Hn : natural 50 100 dpv 200000 293.15 0 kap)
    by (apply natural_example_call; lra).
  destruct (setup_scalar 50 100 "mm" dpv 200000 293.15 0 kap 0.62 0.1 Hn)
    as [adv [_ Hs]].
  pose proof (ready_scalar_env 50 100 "mm" dpv 200000 293.15 0 kap adv Hn)
    as He.
  set (e := scalar_env 50 100 "mm" dpv 200000 293.15 0 kap adv) in *.
  set (A := area (metres "mm" 50)) in *.
  set (nu := mu_real (kelvin 293.15) / rho_real 200000 (kelvin 293.15) 0) in *.
  assert (Hstep : forall c, 0.55 <= c ->
            0 < reynolds e A rho nu eps dpv c /\
            0.55 <= C_real (e_beta e) (e_d_pipe e) (reynolds e A rho nu eps dpv c)).
  { intros c Hc.
    change (reynolds e A rho nu eps dpv c) with (example_reynolds dpv kap c).
    pose proof (example_reynolds_bound dpv kap c Hdp Hk Hc) as Hre.
    split; [lra |]. unfold e. cbn [scalar_env e_beta e_d_pipe].
    unfold metres at 1. cbn [String.eqb Ascii.eqb Bool.eqb].
    now apply C_real_example. }
  assert (Ha : above 0.55 (initial_state (example_call dpv kap))).
  { exists 0.62. split; [left; reflexivity | lra]. }
  destruct (body_above e A rho nu eps unc dpv 0.55 He Hstep _ Ha)
    as (s1 & Hb1 & Ha1 & Hp1).
  pose proof (while_loop_fuel 1000 e (initial_state (example_call dpv kap))
                ltac:(cbn; lia) ltac:(cbn; lia)) as Hw.
  destruct (while_loop 1000 e (initial_state (example_call dpv kap)))
    as [r |] eqn:Hr; [clear Hw | contradiction].
  assert (Hlast : exists s' capped, r = Ok (s', capped) /\
                    passed e A rho nu eps unc dpv 0.55 s').
  { change 1000%nat with (S 999) in Hr.
    rewrite (while_loop_step 999 e _ s1) in Hr;
      [| cbn; apply Rltb_true; unfold eps_res; lra | exact Hb1].
    destruct (999 <? s_j s1)%nat.
    - inversion Hr. eauto.
    - destruct (while_loop_above e A rho nu eps unc dpv 0.55 He Hstep _ _ _ Ha1 Hr)
        as (s' & capped & Hr' & [-> | Hp']); eauto. }
  destruct Hlast as (s' & capped & -> & (s & c & C & r' & Hc & Hcv & Hb & Es')).
  subst s'.
  destruct (finish_float e
              (pass e s c eps unc dpv rho (reynolds e A rho nu eps dpv c) (Fin C) r')
              capped (Fin C) dpv
              (Np (Fin (vfr_real c (50 / 100) (metres "mm" 50) eps dpv rho)))
              (Np (Fin (vfr_real
                 (c - flow_uncertainty (50 / 100) (metres "mm" 100)
                        (Np (Fin (example_reynolds dpv kap c))))
                 (50 / 100) (metres "mm" 50) (eps - unc) dpv rho)))
              (Np (Fin (vfr_real
                 (c + flow_uncertainty (50 / 100) (metres "mm" 100)
                        (Np (Fin (example_reynolds dpv kap c))))
                 (50 / 100) (metres "mm" 50) (eps + unc) dpv rho))))
    as [loss Hf]; try reflexivity.
  { apply (ready_beta _ _ _ _ _ _ _ He). }
  exists adv, s, c, C, r', loss, capped. cbn zeta.
  split; [exact Hs |]. split; [exact Hc |]. split; [exact Hcv |].
  split; [exact Hb |].
  rewrite (compute_volume_flow_rate_eq (example_call dpv kap) e _ Hs Hr).
  exact Hf.
Qed.

End ExampleRun.

(** ** Negative pressure differences *)

Lemma Rpower_antitone b y1 y2 :
  0 < b < 1 -> y1 <= y2 -> Rpower b y2 <= Rpower b y1.
Proof.
  intros [H0 H1] Hy. unfold Rpower.
  assert (ln b < 0) by (rewrite <- ln_1; now apply ln_increasing).
  destruct (Req_dec_T (y2 * ln b) (y1 * ln b)) as [-> | Hn]; [lra |].
  apply Rlt_le, exp_increasing. nra.
Qed.

Lemma flow_factor_opp beta d dpv rho :
  0 < dpv ->
  flow_factor beta d (- dpv) rho = - flow_factor beta d dpv rho.
Proof.
  intros Hdp. unfold flow_factor, vfr_real.
  rewrite Rltb_true, Rltb_false by lra.
  rewrite Rabs_Ropp, Rabs_pos_eq by lra. ring.
Qed.

Lemma eps_example_negative :
  0.62 < eps_real (50 / 100) 200000 (-150000) 1.4 < 0.82.
Proof.
  unfold eps_real.
  rewrite (Rpower_4 (50 / 100)), (Rpower_8 (50 / 100)) by lra.
  replace ((200000 + -150000) / 200000) with 0.25 by lra.
  assert (Hx : 0 < Rpower 0.25 (1 / 1.4) <= 0.5).
  { split; [apply Rpower_pos |].
    replace 0.5 with (Rpower 0.25 (/ 2)).
    - apply Rpower_antitone; lra.
    - rewrite Rpower_sqrt by lra.
      replace 0.25 with (0.5 * 0.5) by lra. apply sqrt_square. lra. }
  simpl pow. lra.
Qed.

(** The example call with [dp = -150000]: one pass, from the initial
    guess. *)
Lemma example_negative_run :
  exists adv loss re,
    let a := example_call (-150000) 1.4 in
    let e := scalar_env 50 100 "mm" (-150000) 200000 293.15 0 1.4 adv in
    let eps := eps_real (50 / 100) 200000 (-150000) 1.4 in
    let unc := eps_uncertainty_real 200000 (-150000) 1.4 in
    let rho := rho_real 200000 (kelvin 293.15) 0 in
    let s1 := pass e (initial_state a) 0.62 eps unc (-150000) rho re NaN NaN in
    setup a = Ok e /\
    body e (initial_state a) = Ok s1 /\
    compute_volume_flow_rate a
    = Ok {| qv := Np (Fin (vfr_real 0.62 (50 / 100) (metres "mm" 50) eps
                             (-150000) rho));
            qv_min := Np (Fin (vfr_real
               (0.62 - flow_uncertainty (50 / 100) (metres "mm" 100) (Np (Fin re)))
               (50 / 100) (metres "mm" 50) (eps - unc) (-150000) rho));
            qv_max := Np (Fin (vfr_real
               (0.62 + flow_uncertainty (50 / 100) (metres "mm" 100) (Np (Fin re)))
               (50 / 100) (metres "mm" 50) (eps + unc) (-150000) rho));
            dp_loss := loss; max_iterations_reached := false;
            advisories := adv; final := s1 |}.
Proof.
  assert (Hn : natural 50 100 (-150000) 200000 293.15 0 1.4)
    by (apply natural_example_call; lra).
  destruct (setup_scalar 50 100 "mm" (-150000) 200000 293.15 0 1.4 0.62 0.1 Hn)
    as [adv [_ Hs]].
  pose proof (ready_scalar_env 50 100 "mm" (-150000) 200000 293.15 0 1.4 adv Hn)
    as He.
  set (e := scalar_env 50 100 "mm" (-150000) 200000 293.15 0 1.4 adv) in *.
  set (rho := rho_real 200000 (kelvin 293.15) 0) in *.
  set (nu := mu_real (kelvin 293.15) / rho) in *.
  set (A := area (metres "mm" 50)) in *.
  set (eps_n := eps_real (50 / 100) 200000 (-150000) 1.4) in *.
  pose proof eps_example_negative as Hen. fold eps_n in Hen.
  pose proof (ready_beta _ _ _ _ _ _ _ He) as Hb.
  pose proof (ready_d _ _ _ _ _ _ _ He) as Hd.
  pose proof (ready_D _ _ _ _ _ _ _ He) as HD.
  destruct (ready_A _ _ _ _ _ _ _ He) as [_ HA].
  destruct (ready_rho _ _ _ _ _ _ _ He) as [_ Hrho].
  destruct (ready_nu _ _ _ _ _ _ _ He) as [_ Hnu].
  cbn [e scalar_env e_beta e_d_orifice e_d_pipe] in Hb, Hd, HD.
  destruct (flow_factor_sign (50 / 100) (metres "mm" 50) (-150000) rho Hb Hd Hrho)
    as (_ & HK & _).
  specialize (HK ltac:(lra)).
  set (K := flow_factor (50 / 100) (metres "mm" 50) (-150000) rho) in *.
  assert (Hre : vfr_real (C_guess (example_call (-150000) 1.4)) (e_beta e)
                  (e_d_orifice e) eps_n (-150000) rho / A * e_d_pipe e / nu < 0).
  { cbn [example_call C_guess e scalar_env e_beta e_d_orifice e_d_pipe].
    rewrite vfr_real_factor by assumption. fold K.
    assert (0 < / A) by now apply Rinv_0_lt_compat.
    assert (0 < / nu) by now apply Rinv_0_lt_compat.
    assert (Hm : 0 < / A * metres "mm" 100 * / nu).
    { apply Rmult_lt_0_compat; [apply Rmult_lt_0_compat |]; assumption. }
    assert (0.62 * eps_n * K < 0) by nra.
    unfold Rdiv. rewrite !Rmult_assoc. rewrite <- (Rmult_assoc (/ A)). nra. }
  destruct (one_pass_when_reynolds_negative (example_call (-150000) 1.4) e
              A rho nu eps_n _ (-150000) Hs He ltac:(cbn; lra) Hre)
    as [loss Hneg].
  exists adv, loss. eexists. cbn zeta.
  split; [exact Hs |]. split; [| exact Hneg].
  apply (body_neg e (initial_state (example_call (-150000) 1.4))
           A rho nu eps_n _ (-150000) 0.62 He (or_introl eq_refl) Hre).
Qed.


(** ** An orifice nearly as wide as the pipe *)

(** Rational exponents against integer powers. *)
Lemma Rpower_lower a x (n m : nat) :
  0 < a -> 0 < x -> (0 < m)%nat -> a ^ m <= x ^ n ->
  a <= Rpower x (INR n / INR m).
Proof.
  intros Ha Hx Hm H.
  assert (Hm' : 0 < INR m) by now apply lt_0_INR.
  rewrite <- !Rpower_pow in H by assumption.
  replace a with (Rpower (Rpower a (INR m)) (/ INR m)).
  - unfold Rdiv. rewrite <- Rpower_mult.
    apply Rle_Rpower_l.
    + apply Rlt_le, Rinv_0_lt_compat. assumption.
    + split; [apply Rpower_pos | assumption].
  - rewrite Rpower_mult, Rinv_r by lra. now apply Rpower_1.
Qed.

Lemma Rpower_upper a x (n m : nat) :
  0 < a -> 0 < x -> (0 < m)%nat -> x ^ n <= a ^ m ->
  Rpower x (INR n / INR m) <= a.
Proof.
  intros Ha Hx Hm H.
  assert (Hm' : 0 < INR m) by now apply lt_0_INR.
  rewrite <- !Rpower_pow in H by assumption.
  replace a with (Rpower (Rpower a (INR m)) (/ INR m)).
  - unfold Rdiv. rewrite <- Rpower_mult.
    apply Rle_Rpower_l.
    + apply Rlt_le, Rinv_0_lt_compat. assumption.
    + split; [apply Rpower_pos | assumption].
  - rewrite Rpower_mult, Rinv_r by lra. now apply Rpower_1.
Qed.

Lemma Rpower_mono x y a : 0 <= a -> 0 < x <= y -> Rpower x a <= Rpower y a.
Proof. intros Ha H. now apply Rle_Rpower_l. Qed.

Lemma exp_eighth y : exp (8 * y) = exp y ^ 8.
Proof.
  replace (8 * y) with (y + y + y + y + y + y + y + y) by lra.
  rewrite !exp_plus. simpl pow. ring.
Qed.

Lemma exp_lower_example : 0.772 <= exp (-10 * (25.4 / 1000 / (1000 / 1000))).
Proof.
  replace (-10 * (25.4 / 1000 / (1000 / 1000))) with (8 * -0.03175) by lra.
  rewrite exp_eighth.
  pose proof (exp_ineq1_le (-0.03175)) as H.
  set (z := exp (-0.03175)) in *.
  assert (H1 : 0.96825 <= z) by lra.
  assert (H2 : 0.9375 <= z * z) by nra.
  assert (H4 : 0.8789 <= (z * z) * (z * z)) by nra.
  assert (H8 : 0.7724 <= ((z * z) * (z * z)) * ((z * z) * (z * z))) by nra.
  simpl pow. lra.
Qed.

Lemma exp_upper_example : exp (-7 * (25.4 / 1000 / (1000 / 1000))) <= 0.839.
Proof.
  replace (-7 * (25.4 / 1000 / (1000 / 1000))) with (- (8 * 0.022225)) by lra.
  rewrite exp_Ropp, exp_eighth.
  pose proof (exp_ineq1_le 0.022225) as H.
  set (z := exp 0.022225) in *.
  assert (H1 : 1.022225 <= z) by lra.
  assert (H2 : 1.0449 <= z * z) by nra.
  assert (H4 : 1.0918 <= (z * z) * (z * z)) by nra.
  assert (H8 : 1.192 <= ((z * z) * (z * z)) * ((z * z) * (z * z))) by nra.
  simpl pow.
  replace (z * (z * (z * (z * (z * (z * (z * (z * 1))))))))
    with (((z * z) * (z * z)) * ((z * z) * (z * z))) by ring.
  set (w := ((z * z) * (z * z)) * ((z * z) * (z * z))) in *.
  apply (Rmult_le_reg_r w); [lra |].
  rewrite Rinv_l by lra. lra.
Qed.

(** Between the Reynolds numbers 11 and 59 the correlation is negative for
    the orifice of 999.9 mm in the pipe of 1000 mm. *)
Lemma C_real_wide_orifice re :
  11 <= re <= 59 -> C_real (999.9 / 1000) (metres "mm" 1000) re < -1.
Proof.
  intros [Hlo Hhi]. unfold C_real, metres.
  cbn [String.eqb Ascii.eqb Bool.eqb].
  rewrite Rltb_false by lra.
  set (beta := 999.9 / 1000).
  assert (Hb : 0 < beta < 1) by (unfold beta; lra).
  assert (Hb2 : Rpower beta 2 <= 1) by (apply Rpower_le_1; lra).
  assert (Hb8 := Rpower_pos beta 8).
  assert (Hb35 : 0 < Rpower beta 3.5 <= 1)
    by (split; [apply Rpower_pos | apply Rpower_le_1; lra]).
  assert (Hb13 : 0 < Rpower beta 1.3 <= 1)
    by (split; [apply Rpower_pos | apply Rpower_le_1; lra]).
  assert (HQ : 2490 <= Rpower beta 4 / (1 - Rpower beta 4)).
  { rewrite Rpower_4 by lra.
    assert (H4 : 0.9996 <= beta ^ 4 <= 0.99961)
      by (unfold beta; simpl pow; lra).
    set (b4 := beta ^ 4) in *.
    apply (Rmult_le_reg_r (1 - b4)); [lra |].
    replace (b4 / (1 - b4) * (1 - b4)) with b4 by (field; lra). lra. }
  set (Q := Rpower beta 4 / (1 - Rpower beta 4)) in *.
  assert (Hre : 0 < / re) by (apply Rinv_0_lt_compat; lra).
  (* A *)
  assert (HA : 100 <= Rpower (19000 * beta / re) 0.8).
  { apply Rle_trans with (Rpower 322 0.8).
    - replace 0.8 with (INR 4 / INR 5) by (simpl; lra).
      apply Rpower_lower; [lra | lra | lia |]. simpl pow. lra.
    - apply Rpower_mono; [lra |]. split; [lra |].
      apply (Rmult_le_reg_r re); [lra |]. unfold Rdiv.
      rewrite Rmult_assoc, Rinv_l by lra. unfold beta. lra. }
  set (A := Rpower (19000 * beta / re) 0.8) in *.
  (* the powers of 10^6 / Re *)
  assert (H7 : Rpower (1000000 * beta / re) 0.7 <= 3000).
  { apply Rle_trans with (Rpower 91000 0.7).
    - apply Rpower_mono; [lra |]. split.
      + apply Rdiv_lt_0_compat; lra.
      + apply (Rmult_le_reg_r re); [lra |]. unfold Rdiv.
        rewrite Rmult_assoc, Rinv_l by lra. unfold beta. lra.
    - replace 0.7 with (INR 7 / INR 10) by (simpl; lra).
      apply Rpower_upper; [lra | lra | lia |]. simpl pow. lra. }
  assert (H7p := Rpower_pos (1000000 * beta / re) 0.7).
  set (t4 := Rpower (1000000 * beta / re) 0.7) in *.
  assert (H3 : Rpower (1000000 / re) 0.3 <= 32).
  { apply Rle_trans with (Rpower 91000 0.3).
    - apply Rpower_mono; [lra |]. split.
      + apply Rdiv_lt_0_compat; lra.
      + apply (Rmult_le_reg_r re); [lra |]. unfold Rdiv.
        rewrite Rmult_assoc, Rinv_l by lra. lra.
    - replace 0.3 with (INR 3 / INR 10) by (simpl; lra).
      apply Rpower_upper; [lra | lra | lia |]. simpl pow. lra. }
  assert (H3p := Rpower_pos (1000000 / re) 0.3).
  set (t3 := Rpower (1000000 / re) 0.3) in *.
  (* the bracket of the exponentials *)
  pose proof exp_lower_example as E1. pose proof exp_upper_example as E2.
  set (x1 := exp (-10 * (25.4 / 1000 / (1000 / 1000)))) in *.
  set (x2 := exp (-7 * (25.4 / 1000 / (1000 / 1000)))) in *.
  set (B := 0.043 + 0.080 * x1 - 0.123 * x2).
  assert (HB : 0.0015 <= B) by (unfold B; lra).
  (* M *)
  assert (HM : 2 * (25.4 / 1000 / (1000 / 1000)) / (1 - beta) = 508)
    by (unfold beta; lra).
  rewrite HM.
  assert (HM1 : Rpower 508 1.1 <= 1000).
  { replace 1.1 with (INR 11 / INR 10) by (simpl; lra).
    apply Rpower_upper; [lra | lra | lia |]. simpl pow. lra. }
  set (m := Rpower 508 1.1) in *.
  assert (T5 : (0.0188 + 0.0063 * A) * Rpower beta 3.5 * t3
               <= (0.0188 + 0.0063 * A) * 32).
  { rewrite Rmult_assoc. apply Rmult_le_compat_l; [lra |]. nra. }
  assert (T6 : B * (1 - 0.11 * A) * Q <= 3.735 * (1 - 0.11 * A)).
  { assert (HBQ : 3.735 <= B * Q) by nra.
    replace (B * (1 - 0.11 * A) * Q) with ((B * Q) * (1 - 0.11 * A)) by ring.
    nra. }
  assert (T7 : - (0.031 * (508 - 0.8 * m) * Rpower beta 1.3) <= 9.1).
  { destruct (Rle_dec 0 (508 - 0.8 * m)); nra. }
  lra.
Qed.

Lemma rho_wide_orifice : 0.001188 <= rho_real 100 293.15 0 <= 0.001189.
Proof.
  unfold rho_real, Rs, Rd, VAPOR_PRESSURE.
  replace (1 - 0 * 2300 / 100 * (1 - 287.058 / 461.523)) with 1 by lra.
  replace (287.058 / 1 * 293.15) with 84151.0527 by lra.
  lra.
Qed.

Lemma mu_bounds : 0.0000181 <= mu_real 293.15 <= 0.0000182.
Proof.
  unfold mu_real.
  assert (Hlo : 5019 <= Rpower 293.15 1.5).
  { replace 1.5 with (INR 3 / INR 2) by (simpl; lra).
    apply Rpower_lower; [lra | lra | lia |]. simpl pow. lra. }
  assert (Hhi : Rpower 293.15 1.5 <= 5020).
  { replace 1.5 with (INR 3 / INR 2) by (simpl; lra).
    apply Rpower_upper; [lra | lra | lia |]. simpl pow. lra. }
  replace (293.15 + 110.4) with 403.55 by lra. lra.
Qed.

Lemma sqrt_bounds x lo hi :
  0 <= lo -> 0 <= hi -> lo * lo <= x <= hi * hi -> lo <= sqrt x <= hi.
Proof.
  intros Hlo Hhi [H1 H2]. split.
  - rewrite <- (sqrt_square lo) by assumption. now apply sqrt_le_1_alt.
  - rewrite <- (sqrt_square hi) by assumption. now apply sqrt_le_1_alt.
Qed.

Lemma eps_wide_orifice :
  1 <= eps_real (999.9 / 1000) 100 1e-7 1.4 <= 1.01.
Proof.
  unfold eps_real.
  assert (H4 : 0 < Rpower (999.9 / 1000) 4 <= 1)
    by (split; [apply Rpower_pos | apply Rpower_le_1; lra]).
  assert (H8 : 0 < Rpower (999.9 / 1000) 8 <= 1)
    by (split; [apply Rpower_pos | apply Rpower_le_1; lra]).
  assert (Hx : 1 <= (100 + 1e-7) / 100 <= 1.001) by lra.
  assert (H1 : 1 <= Rpower ((100 + 1e-7) / 100) (1 / 1.4))
    by (apply Rpower_ge_1; lra).
  assert (H2 : Rpower ((100 + 1e-7) / 100) (1 / 1.4) <= 1.001).
  { apply Rle_trans with (Rpower ((100 + 1e-7) / 100) 1).
    - apply Rle_Rpower; lra.
    - rewrite Rpower_1 by lra. lra. }
  nra.
Qed.

(** The first pass of the call computes a Reynolds number of about 26. *)
Lemma wide_orifice_reynolds_bound : 11 <= wide_orifice_reynolds 0.62 <= 59.
Proof.
  unfold wide_orifice_reynolds. rewrite kelvin_example.
  pose proof eps_wide_orifice as Heps.
  pose proof rho_wide_orifice as Hrho. pose proof mu_bounds as Hmu.
  set (eps := eps_real (999.9 / 1000) 100 1e-7 1.4) in *.
  set (rho := rho_real 100 293.15 0) in *.
  set (mu := mu_real 293.15) in *.
  assert (Hb : 0 < 999.9 / 1000 < 1) by lra.
  rewrite vfr_real_factor by assumption.
  replace (0.62 * eps * flow_factor (999.9 / 1000) (metres "mm" 999.9) 1e-7 rho
           / area (metres "mm" 999.9) * metres "mm" 1000 / (mu / rho))
    with (0.62 * eps * (flow_factor (999.9 / 1000) (metres "mm" 999.9) 1e-7 rho
                        / area (metres "mm" 999.9))
          * (metres "mm" 1000 / (mu / rho)))
    by (unfold Rdiv; ring).
  rewrite flow_factor_over_area by lra.
  assert (HS2 : 0.0199 <= sqrt (1 - Rpower (999.9 / 1000) 4) <= 0.02).
  { apply sqrt_bounds; [lra | lra |]. rewrite Rpower_4 by lra.
    simpl pow. lra. }
  assert (Hq : 0.0001682 <= 2 * 1e-7 / rho <= 0.0001684).
  { split.
    - apply (Rmult_le_reg_r rho); [lra |].
      replace (2 * 1e-7 / rho * rho) with (2 * 1e-7) by (field; lra). nra.
    - apply (Rmult_le_reg_r rho); [lra |].
      replace (2 * 1e-7 / rho * rho) with (2 * 1e-7) by (field; lra). nra. }
  assert (HS1 : 0.0129 <= sqrt (2 * 1e-7 / rho) <= 0.013)
    by (apply sqrt_bounds; lra).
  set (S1 := sqrt (2 * 1e-7 / rho)) in *.
  set (S2 := sqrt (1 - Rpower (999.9 / 1000) 4)) in *.
  assert (HX : 0.645 <= S1 / S2 <= 0.654).
  { split.
    - apply (Rmult_le_reg_r S2); [lra |].
      replace (S1 / S2 * S2) with S1 by (field; lra). nra.
    - apply (Rmult_le_reg_r S2); [lra |].
      replace (S1 / S2 * S2) with S1 by (field; lra). nra. }
  assert (HY : 64 <= metres "mm" 1000 / (mu / rho) <= 66).
  { unfold metres. cbn [String.eqb Ascii.eqb Bool.eqb].
    replace (1000 / 1000 / (mu / rho)) with (rho / mu) by (field; lra).
    split.
    - apply (Rmult_le_reg_r mu); [lra |].
      replace (rho / mu * mu) with rho by (field; lra). nra.
    - apply (Rmult_le_reg_r mu); [lra |].
      replace (rho / mu * mu) with rho by (field; lra). nra. }
  set (X := S1 / S2) in *. set (Y := metres "mm" 1000 / (mu / rho)) in *.
  assert (H1 : 0.62 <= 0.62 * eps <= 0.63) by lra.
  assert (H2 : 0.39 <= 0.62 * eps * X <= 0.42) by nra.
  nra.
Qed.

Lemma natural_wide_orifice : natural 999.9 1000 1e-7 100 293.15 0 1.4.
Proof.
  unfold natural, kelvin, VAPOR_PRESSURE, Rs, Rd.
  rewrite Rltb_false by lra. repeat split; lra.
Qed.

(** Above the table of line 175-182, and with a pipe of 0.7112 m or more,
    no uncertainty is returned. *)
Lemma wide_orifice_uncertainty re :
  flow_uncertainty (999.9 / 1000) (metres "mm" 1000) (Np (Fin re)) = 0.
Proof.
  unfold flow_uncertainty, base_uncertainty, metres.
  cbn [String.eqb Ascii.eqb Bool.eqb].
  rewrite (Rleb_true 0.1), (Rltb_false (999.9 / 1000) 0.2) by lra.
  cbn [andb].
  rewrite (Rleb_true 0.2), (Rleb_false (999.9 / 1000) 0.6) by lra.
  cbn [andb].
  rewrite (Rltb_true 0.6), (Rleb_false (999.9 / 1000) 0.77) by lra.
  cbn [andb].
  rewrite (Rltb_false 0 0), (Rltb_false (1000 / 1000)) by lra.
  reflexivity.
Qed.

(** The call makes two passes: the first computes a negative coefficient,
    the second a negative flow rate from it, hence a negative Reynolds
    number and the coefficient NaN, which ends the loop. *)
Lemma wide_orifice_run :
  exists adv loss s C,
    let e := scalar_env 999.9 1000 "mm" 1e-7 100 293.15 0 1.4 adv in
    let eps := eps_real (999.9 / 1000) 100 1e-7 1.4 in
    let unc := eps_uncertainty_real 100 1e-7 1.4 in
    let rho := rho_real 100 (kelvin 293.15) 0 in
    setup wide_orifice_call = Ok e /\
    C < -1 /\
    compute_volume_flow_rate wide_orifice_call
    = Ok {| qv := Np (Fin (vfr_real C (999.9 / 1000) (metres "mm" 999.9)
                             eps 1e-7 rho));
            qv_min := Np (Fin (vfr_real (C - 0) (999.9 / 1000)
                                 (metres "mm" 999.9) (eps - unc) 1e-7 rho));
            qv_max := Np (Fin (vfr_real (C + 0) (999.9 / 1000)
                                 (metres "mm" 999.9) (eps + unc) 1e-7 rho));
            dp_loss := loss; max_iterations_reached := false;
            advisories := adv; final := s |} /\
    s_C_err s = Some 0 /\ s_j s = 2%nat.
Proof.
  pose proof natural_wide_orifice as Hn.
  destruct (setup_scalar 999.9 1000 "mm" 1e-7 100 293.15 0 1.4 0.62 0.1 Hn)
    as [adv [_ Hs]].
  pose proof (ready_scalar_env 999.9 1000 "mm" 1e-7 100 293.15 0 1.4 adv Hn)
    as He.
  fold wide_orifice_call in Hs.
  set (e := scalar_env 999.9 1000 "mm" 1e-7 100 293.15 0 1.4 adv) in *.
  set (eps := eps_real (999.9 / 1000) 100 1e-7 1.4) in *.
  set (unc := eps_uncertainty_real 100 1e-7 1.4) in *.
  set (rho := rho_real 100 (kelvin 293.15) 0) in *.
  set (nu := mu_real (kelvin 293.15) / rho) in *.
  set (A := area (metres "mm" 999.9)) in *.
  pose proof (ready_beta _ _ _ _ _ _ _ He) as Hb.
  pose proof (ready_d _ _ _ _ _ _ _ He) as Hd.
  pose proof (ready_D _ _ _ _ _ _ _ He) as HD.
  destruct (ready_A _ _ _ _ _ _ _ He) as [_ HA].
  destruct (ready_rho _ _ _ _ _ _ _ He) as [_ Hrho].
  destruct (ready_nu _ _ _ _ _ _ _ He) as [_ Hnu].
  pose proof wide_orifice_reynolds_bound as Hre1.
  set (re1 := wide_orifice_reynolds 0.62) in *.
  pose proof (C_real_wide_orifice re1 Hre1) as HC.
  set (C := C_real (999.9 / 1000) (metres "mm" 1000) re1) in *.
  set (s0 := initial_state wide_orifice_call).
  (* the first pass *)
  pose proof (body_pos e s0 A rho nu eps unc 1e-7 0.62 He (or_introl eq_refl)
                ltac:(change (0 < re1); lra)) as Hb1.
  change (body e s0
          = Ok (pass e s0 0.62 eps unc 1e-7 rho re1 (Fin C)
                  (Fin (Rabs (C - 0.62))))) in Hb1.
  set (s1 := pass e s0 0.62 eps unc 1e-7 rho re1 (Fin C)
               (Fin (Rabs (C - 0.62)))) in *.
  (* the second pass *)
  destruct (flow_factor_sign (e_beta e) (e_d_orifice e) 1e-7 rho Hb Hd Hrho)
    as (HK & _ & _).
  specialize (HK ltac:(lra)).
  pose proof eps_wide_orifice as Heps. fold eps in Heps.
  assert (Hq : vfr_real C (e_beta e) (e_d_orifice e) eps 1e-7 rho < 0).
  { rewrite vfr_real_factor by assumption.
    set (K := flow_factor (e_beta e) (e_d_orifice e) 1e-7 rho) in *.
    assert (HeK : 0 < eps * K) by (apply Rmult_lt_0_compat; lra).
    rewrite Rmult_assoc. nra. }
  assert (Hre2 : vfr_real C (e_beta e) (e_d_orifice e) eps 1e-7 rho
                 / A * e_d_pipe e / nu < 0).
  { assert (0 < / A) by now apply Rinv_0_lt_compat.
    assert (0 < / nu) by now apply Rinv_0_lt_compat.
    unfold Rdiv.
    assert (Hm : 0 < / A * e_d_pipe e * / nu).
    { apply Rmult_lt_0_compat; [apply Rmult_lt_0_compat |]; assumption. }
    rewrite !Rmult_assoc. rewrite <- (Rmult_assoc (/ A)). nra. }
  pose proof (body_neg e s1 A rho nu eps unc 1e-7 C He (or_intror eq_refl) Hre2)
    as Hb2.
  set (re2 := vfr_real C (e_beta e) (e_d_orifice e) eps 1e-7 rho
              / A * e_d_pipe e / nu) in *.
  set (s2 := pass e s1 C eps unc 1e-7 rho re2 NaN NaN) in *.
  assert (Hw : while_loop 1000 e s0 = Some (Ok (s2, false))).
  { change 1000%nat with (S (S 998)).
    rewrite (while_loop_step (S 998) e s0 s1);
      [| cbn; apply Rltb_true; unfold eps_res; lra | exact Hb1].
    change (999 <? s_j s1)%nat with false. cbn match.
    rewrite (while_loop_step 998 e s1 s2);
      [| cbn; apply Rltb_true; unfold eps_res, Rabs;
         destruct (Rcase_abs (C - 0.62)); lra | exact Hb2].
    change (999 <? s_j s2)%nat with false. cbn match.
    apply while_loop_exit. reflexivity. }
  destruct (finish_float e s2 false NaN 1e-7 _ _ _ (proj1 Hb)
              (ready_dp _ _ _ _ _ _ _ He) eq_refl eq_refl eq_refl eq_refl)
    as [loss Hloss].
  exists adv, loss, s2, C. cbn zeta.
  split; [exact Hs |]. split; [exact HC |]. split.
  - rewrite (compute_volume_flow_rate_eq _ e _ Hs Hw). rewrite Hloss.
    cbn [s_vfr_value s_vfr_value_min s_vfr_value_max s2 pass].
    change (flow_uncertainty (e_beta e) (e_d_pipe e) (Np (Fin re2)))
      with (flow_uncertainty (999.9 / 1000) (metres "mm" 1000) (Np (Fin re2))).
    rewrite wide_orifice_uncertainty. reflexivity.
  - split; [| reflexivity].
    cbn [s_C_err s2 pass].
    change (flow_uncertainty (e_beta e) (e_d_pipe e) (Np (Fin re2)))
      with (flow_uncertainty (999.9 / 1000) (metres "mm" 1000) (Np (Fin re2))).
    now rewrite wide_orifice_uncertainty.
Qed.

(** C1, the claim as stated fails: the call with the orifice of 999.9 mm in
    the pipe of 1000 mm returns, in its last pass neither uncertainty is
    negative, and the returned flow rate lies below the lower and above the
    upper bound: the coefficient guess of the last pass is negative. *)
Lemma flow_rate_outside_its_bounds :
  exists e out err u q qmin qmax,
    setup wide_orifice_call = Ok e /\
    compute_volume_flow_rate wide_orifice_call = Ok out /\
    s_C_err (final out) = Some err /\ 0 <= err /\
    e_eps_uncertainty e = Py u /\ 0 <= u /\
    qv out = Np (Fin q) /\ qv_min out = Np (Fin qmin) /\
    qv_max out = Np (Fin qmax) /\
    qmax < q < qmin.
Proof.
  destruct wide_orifice_run as (adv & loss & s & C & Hs & HC & Hrun & Herr & _).
  cbn zeta in *.
  do 7 eexists. split; [exact Hs |]. split; [exact Hrun |].
  cbn [final qv qv_min qv_max scalar_env e_eps_uncertainty].
  split; [exact Herr |]. split; [lra |].
  split; [reflexivity |].
  assert (Hu : 0 < eps_uncertainty_real 100 1e-7 1.4)
    by (unfold eps_uncertainty_real; lra).
  split; [lra |].
  split; [reflexivity |]. split; [reflexivity |]. split; [reflexivity |].
  pose proof natural_wide_orifice as Hn.
  pose proof (ready_scalar_env 999.9 1000 "mm" 1e-7 100 293.15 0 1.4 adv Hn)
    as He.
  pose proof (ready_beta _ _ _ _ _ _ _ He) as Hb.
  pose proof (ready_d _ _ _ _ _ _ _ He) as Hd.
  destruct (ready_rho _ _ _ _ _ _ _ He) as [_ Hrho].
  cbn [scalar_env e_beta e_d_orifice] in Hb, Hd.
  destruct (flow_factor_sign (999.9 / 1000) (metres "mm" 999.9) 1e-7
              (rho_real 100 (kelvin 293.15) 0) Hb Hd Hrho) as (HK & _ & _).
  specialize (HK ltac:(lra)).
  rewrite !vfr_real_factor by assumption.
  set (K := flow_factor (999.9 / 1000) (metres "mm" 999.9) 1e-7
              (rho_real 100 (kelvin 293.15) 0)) in *.
  set (u := eps_uncertainty_real 100 1e-7 1.4) in *.
  set (eps := eps_real (999.9 / 1000) 100 1e-7 1.4).
  assert (H1 : C * u < 0) by nra.
  split.
  - replace ((C + 0) * (eps + u) * K) with (C * eps * K + (C * u) * K) by ring.
    nra.
  - replace ((C - 0) * (eps - u) * K) with (C * eps * K - (C * u) * K) by ring.
    nra.
Qed.

(** ** Entries and shapes of results *)

Lemma nth_map_lt (f : num -> num) xs k :
  (k < List.length xs)%nat -> nth k (map f xs) NaN = f (nth k xs NaN).
Proof.
  intros H. rewrite (nth_indep _ NaN (f NaN)) by (now rewrite length_map).
  apply map_nth.
Qed.

Lemma length_map2 f xs ys :
  List.length xs = List.length ys ->
  List.length (map2 f xs ys) = List.length xs.
Proof.
  revert ys. induction xs as [| x xs IH]; intros [| y ys] H; cbn in *;
    try discriminate; try reflexivity.
  f_equal. apply IH. now inversion H.
Qed.

Lemma nth_map2 f xs ys k :
  List.length xs = List.length ys -> (k < List.length xs)%nat ->
  nth k (map2 f xs ys) NaN = f (nth k xs NaN) (nth k ys NaN).
Proof.
  revert ys k. induction xs as [| x xs IH]; intros [| y ys] k H Hk; cbn in *;
    try discriminate; try lia.
  destruct k as [| k]; [reflexivity |]. apply IH; [now inversion H | lia].
Qed.

Lemma slot_lt n i : n = 1%nat \/ (i < n)%nat -> (slot n i < n)%nat.
Proof.
  unfold slot. intros H. destruct (n =? 1)%nat eqn:E.
  - apply Nat.eqb_eq in E. lia.
  - apply Nat.eqb_neq in E. lia.
Qed.

Lemma get_map f xs i :
  valid_index (Arr (map f xs)) i ->
  valid_index (Arr xs) i /\
  get (Arr (map f xs)) i = f (get (Arr xs) i).
Proof.
  unfold valid_index. cbn [size get]. rewrite length_map. intros H.
  split; [assumption |]. apply nth_map_lt. now apply slot_lt.
Qed.

Lemma map_facts (g : num -> num) xs :
  size (Arr (map g xs)) = size (Arr xs) /\
  forall i, valid_index (Arr (map g xs)) i ->
    valid_index (Arr xs) i /\ get (Arr (map g xs)) i = g (get (Arr xs) i).
Proof.
  split; [cbn; now rewrite length_map | apply get_map].
Qed.

Lemma broadcast_arrays f xs ys r :
  broadcast f (Arr xs) (Arr ys) = Ok r ->
  compat (size (Arr xs)) (size (Arr ys)) /\
  size r = join (size (Arr xs)) (size (Arr ys)) /\
  forall i, valid_index r i ->
    valid_index (Arr xs) i /\ valid_index (Arr ys) i /\
    get r i = f (get (Arr xs) i) (get (Arr ys) i).
Proof.
  unfold broadcast. cbn [items].
  destruct (List.length xs =? List.length ys)%nat eqn:E.
  - apply Nat.eqb_eq in E. intros H. inversion H; subst. clear H.
    cbn [size compat join]. rewrite (proj2 (Nat.eqb_eq _ _) E).
    rewrite length_map2 by assumption.
    split; [now left |]. split; [reflexivity |].
    intros i Hi. unfold valid_index in *. cbn [size get] in *.
    rewrite length_map2 in * by assumption. rewrite <- E.
    repeat split; try assumption.
    apply nth_map2; [assumption | now apply slot_lt].
  - apply Nat.eqb_neq in E.
    destruct xs as [| x [| x' xs]].
    + destruct ys as [| y [| y' ys]]; cbn [List.length] in E;
        try (exfalso; apply E; reflexivity); try discriminate.
      intros H. inversion H; subst. clear H.
      cbn [size compat join List.length map Nat.eqb].
      split; [auto |]. split; [reflexivity |].
      intros i Hi. unfold valid_index in *.
      cbn [size get List.length map Nat.eqb nth] in *. lia.
    + intros H. inversion H; subst. clear H.
      cbn [List.length] in E.
      cbn [size compat join List.length].
      rewrite (proj2 (Nat.eqb_neq _ _) E). cbn [Nat.eqb].
      rewrite length_map.
      split; [auto |]. split; [reflexivity |].
      intros i Hi. destruct (get_map (f x) ys i Hi) as [Hv Hg].
      split; [unfold valid_index; cbn; auto |]. split; [exact Hv |].
      exact Hg.
    + destruct ys as [| y [| y' ys]]; try discriminate.
      intros H. inversion H; subst. clear H.
      cbn [size compat join List.length Nat.eqb].
      rewrite length_map. cbn [List.length].
      split; [auto |]. split; [reflexivity |].
      intros i Hi.
      destruct (get_map (fun a => f a y) (x :: x' :: xs) i Hi) as [Hv Hg].
      split; [exact Hv |]. split; [unfold valid_index; cbn; auto |].
      exact Hg.
Qed.

Ltac scalar_case :=
  split; [exact I |]; split; [reflexivity |];
  intros i _; repeat split.

Ltac map_case g xs :=
  destruct (map_facts g xs) as [Hs Hg];
  split; [exact I |]; split; [exact Hs |];
  intros i Hi; destruct (Hg i Hi) as [Hv He];
  repeat split; assumption.

Lemma broadcast_facts f a b r :
  broadcast f a b = Ok r ->
  compat (size a) (size b) /\ size r = join (size a) (size b) /\
  forall i, valid_index r i ->
    valid_index a i /\ valid_index b i /\ get r i = f (get a i) (get b i).
Proof.
  destruct a as [x | x | xs], b as [y | y | ys];
    try apply broadcast_arrays;
    unfold broadcast; cbn [items]; intros H; inversion H; subst; clear H;
    cbn [size compat join].
  - scalar_case.
  - scalar_case.
  - map_case (f (Fin x)) ys.
  - scalar_case.
  - scalar_case.
  - map_case (f x) ys.
  - map_case (fun a => f a (Fin y)) xs.
  - map_case (fun a => f a y) xs.
Qed.

Lemma vadd_facts : op_facts vadd nadd.
Proof.
  intros [x | x | xs] [y | y | ys] r; try apply broadcast_facts.
  cbn. intros H. inversion H. repeat split.
Qed.

Lemma vsub_facts : op_facts vsub nsub.
Proof.
  intros [x | x | xs] [y | y | ys] r; try apply broadcast_facts.
  cbn. intros H. inversion H. repeat split.
Qed.

Lemma vmul_facts : op_facts vmul nmul.
Proof.
  intros [x | x | xs] [y | y | ys] r; try apply broadcast_facts.
  cbn. intros H. inversion H. repeat split.
Qed.

Lemma vdiv_facts : op_facts vdiv ndiv.
Proof.
  intros [x | x | xs] [y | y | ys] r; try apply broadcast_facts.
  cbn [vdiv]. unfold pydiv. destruct (Reqb y 0) eqn:E; cbn [bind];
    intros H; inversion H.
  repeat split. cbn. now rewrite E.
Qed.

Lemma vpow_facts : op_facts vpow npow2.
Proof.
  intros [x | x | xs] [y | y | ys] r; try apply broadcast_facts.
  cbn [vpow]. unfold pypow. cbn [size compat join get npow2]. unfold npow.
  destruct (Reqb y 0); [intros H; inversion H; repeat split |].
  destruct (Rltb 0 x); [intros H; inversion H; repeat split |].
  destruct (Reqb x 0).
  - destruct (Rltb 0 y); intros H; inversion H; repeat split.
  - destruct (is_int y); intros H; inversion H; repeat split.
Qed.

Lemma lift2_facts op nf ma mb r :
  op_facts op nf -> lift2 op ma mb = Ok r ->
  exists a b,
    ma = Ok a /\ mb = Ok b /\
    compat (size a) (size b) /\ size r = join (size a) (size b) /\
    forall i, valid_index r i ->
      valid_index a i /\ valid_index b i /\ get r i = nf (get a i) (get b i).
Proof.
  intros Hop H. unfold lift2 in H.
  apply bind_Ok in H. destruct H as [a [Ha H]].
  apply bind_Ok in H. destruct H as [b [Hb H]].
  exists a, b. split; [assumption |]. split; [assumption |].
  now apply Hop.
Qed.

Lemma vmap_facts f v :
  size (vmap f v) = size v /\
  forall i, valid_index (vmap f v) i ->
    valid_index v i /\ get (vmap f v) i = f (get v i).
Proof.
  destruct v as [x | x | xs]; cbn [vmap]; try apply map_facts;
    repeat split.
Qed.

Lemma lift1_facts f ma r :
  lift1 (vmap f) ma = Ok r ->
  exists a,
    ma = Ok a /\ size r = size a /\
    forall i, valid_index r i -> valid_index a i /\ get r i = f (get a i).
Proof.
  intros H. unfold lift1 in H.
  apply bind_Ok in H. destruct H as [a [Ha H]]. injection H as <-.
  exists a. split; [assumption |]. apply vmap_facts.
Qed.

(** Takes an expression that returned apart: for every operation, the
    operands, the shapes and the entries at the index of [V]. *)
Ltac facts H i V :=
  let a := fresh "a" in
  let b := fresh "b" in
  let Ha := fresh "Ha" in
  let Hb := fresh "Hb" in
  let Hc := fresh "Hcompat" in
  let Hs := fresh "Hsize" in
  let Hg := fresh "Hget" in
  let Va := fresh "Va" in
  let Vb := fresh "Vb" in
  let Eg := fresh "Eg" in
  let go2 lem :=
    (apply (lift2_facts _ _ _ _ _ lem) in H;
     destruct H as (a & b & Ha & Hb & Hc & Hs & Hg);
     destruct (Hg i V) as (Va & Vb & Eg); clear Hg;
     facts Ha i Va; facts Hb i Vb) in
  let go1 :=
    (apply lift1_facts in H;
     destruct H as (a & Ha & Hs & Hg);
     destruct (Hg i V) as (Va & Eg); clear Hg;
     facts Ha i Va) in
  lazymatch type of H with
  | lift2 vadd _ _ = Ok _ => go2 vadd_facts
  | lift2 vsub _ _ = Ok _ => go2 vsub_facts
  | lift2 vmul _ _ = Ok _ => go2 vmul_facts
  | lift2 vdiv _ _ = Ok _ => go2 vdiv_facts
  | lift2 vpow _ _ = Ok _ => go2 vpow_facts
  | lift1 (vmap _) _ = Ok _ => go1
  | np_sqrt _ = Ok _ => unfold np_sqrt in H; go1
  | np_exp _ = Ok _ => unfold np_exp in H; go1
  | np_abs _ = Ok _ => unfold np_abs in H; go1
  | np_sign _ = Ok _ => unfold np_sign in H; go1
  | np_pi = Ok _ => unfold np_pi, lit in H; inversion H; subst
  | lit _ = Ok _ => unfold lit in H; inversion H; subst
  | ret_value _ = Ok _ => unfold ret_value in H; inversion H; subst
  | _ => idtac
  end.

(** Rewrites the entries that [facts] has found into the goal. *)
Ltac entries :=
  repeat match goal with
    | E : get _ _ = _ |- _ => rewrite E; clear E
    end;
  cbn [get].

Lemma join_None_r s : join s None = s.
Proof. destruct s; reflexivity. Qed.

Lemma join_idem s : join s s = s.
Proof. destruct s as [n |]; cbn; [now rewrite Nat.eqb_refl | reflexivity]. Qed.

(** Simplifies the shapes that [facts] has found. *)
Ltac shapes :=
  cbn [size join] in *; rewrite ?join_None_r, ?join_idem in *.

Lemma vfr_entry C_0 beta d eps dpv rho r i :
  _vfr C_0 (Py beta) (Py d) eps dpv rho = Ok r ->
  valid_index r i ->
  get r i = vfr_num (get C_0 i) beta d (get eps i) (get dpv i) (get rho i)
              (any_negative dpv) /\
  valid_index C_0 i /\ valid_index eps i /\ valid_index dpv i /\
  compat (size dpv) (size rho).
Proof.
  unfold _vfr, vfr_num. intros H V.
  destruct (any_negative dpv); facts H i V;
    (split; [entries; reflexivity |]); repeat (split; [assumption |]);
    shapes; congruence.
Qed.

(** ** The pass that computed the returned tuple *)

Lemma while_loop_last fuel e s0 s' capped :
  while_loop fuel e s0 = Some (Ok (s', capped)) ->
  s' = s0 \/ exists s, body e s = Ok s'.
Proof.
  revert s0. induction fuel as [| fuel IH]; intros s0 H; cbn [while_loop] in H.
  - destruct (ngt (np_mean (s_residuum s0)) (Fin eps_res)); [discriminate |].
    inversion H. now left.
  - destruct (ngt (np_mean (s_residuum s0)) (Fin eps_res)).
    + destruct (body e s0) as [s1 | x |] eqn:Hb; try discriminate.
      destruct (999 <? s_j s1)%nat.
      * inversion H; subst. right. eauto.
      * destruct (IH s1 H) as [-> | Hs]; [right; eauto | now right].
    + inversion H. now left.
Qed.

Lemma load_Ok {A : Type} (x : option A) v : load x = Ok v -> x = Some v.
Proof. destruct x; cbn; intros H; now inversion H. Qed.

Lemma finish_inv e s capped out :
  finish e s capped = Ok out ->
  s_vfr_value s = Some (qv out) /\ s_vfr_value_min s = Some (qv_min out) /\
  s_vfr_value_max s = Some (qv_max out) /\ s_C s <> None /\
  final out = s /\ max_iterations_reached out = capped /\
  advisories out = e_advisories e.
Proof.
  unfold finish. intros H.
  apply bind_Ok in H. destruct H as [C [HC H]]. apply load_Ok in HC.
  apply bind_Ok in H. destruct H as [loss [_ H]].
  apply bind_Ok in H. destruct H as [v [Hv H]]. apply load_Ok in Hv.
  apply bind_Ok in H. destruct H as [vmin [Hmin H]]. apply load_Ok in Hmin.
  apply bind_Ok in H. destruct H as [vmax [Hmax H]]. apply load_Ok in Hmax.
  inversion H; subst; cbn. rewrite HC. repeat split; try assumption.
  discriminate.
Qed.

Lemma setup_dp a e : setup a = Ok e -> e_dp e = dp a.
Proof.
  unfold setup. intros H.
  apply bind_Ok in H. destruct H as [[beta adv] [_ H]].
  destruct (String.eqb (length_unit a) "mm");
    (apply bind_Ok in H; destruct H as [A_D [_ H]];
     apply bind_Ok in H; destruct H as [T' [_ H]];
     apply bind_Ok in H; destruct H as [rho [_ H]];
     apply bind_Ok in H; destruct H as [mu [_ H]];
     apply bind_Ok in H; destruct H as [nu [_ H]];
     apply bind_Ok in H; destruct H as [p2 [_ H]];
     apply bind_Ok in H; destruct H as [[eps eps_u] [_ H]];
     inversion H; reflexivity).
Qed.

(** A call that returns has passed the lines before the loop and at least
    once through the body; the tuple holds what the last pass assigned. *)
Lemma last_pass a out :
  compute_volume_flow_rate a = Ok out ->
  exists e s,
    setup a = Ok e /\ body e s = Ok (final out) /\
    s_vfr_value (final out) = Some (qv out) /\
    s_vfr_value_min (final out) = Some (qv_min out) /\
    s_vfr_value_max (final out) = Some (qv_max out) /\
    (s_j (final out) <= 1000)%nat /\
    (max_iterations_reached out = true <-> s_j (final out) = 1000%nat).
Proof.
  unfold compute_volume_flow_rate, run. intros H.
  destruct (setup a) as [e | x |] eqn:He; try discriminate.
  destruct (while_loop 1000 e (initial_state a)) as [[[s' capped] | x |] |] eqn:Hw;
    try discriminate.
  apply finish_inv in H. destruct H as (Hv & Hmin & Hmax & HC & Hf & Hcap & _).
  rewrite Hf, Hcap.
  assert (H0 : (s_j (initial_state a) <= 999)%nat) by (cbn; lia).
  pose proof (while_loop_counter 1000 e _ _ _ H0 Hw) as (Hj & Hc & _ & _).
  destruct (while_loop_last _ _ _ _ _ Hw) as [-> | [s Hb]].
  - exfalso. apply HC. reflexivity.
  - exists e, s. repeat split; try assumption; try lia; apply Hc.
Qed.

(** ** Entries of the flow formula *)

Lemma vfr_num_fin c beta d eps delta rho negative :
  0 < beta < 1 -> 0 < d -> 0 < rho ->
  (delta < 0 -> negative = true) ->
  vfr_num (Fin c) beta d (Fin eps) (Fin delta) (Fin rho) negative
  = Fin (c * eps * flow_factor beta d delta rho).
Proof.
  intros Hb Hd Hrho Hneg.
  assert (H4 : Rpower beta 4 < 1) by (apply Rpower_lt_1; lra).
  assert (Hs : 0 < sqrt (1 + - Rpower beta 4)) by (apply sqrt_lt_R0; lra).
  assert (Hs' : sqrt (1 - Rpower beta 4) = sqrt (1 + - Rpower beta 4))
    by reflexivity.
  unfold vfr_num. cbn [npow2]. rewrite !npow_pos by lra.
  cbn [nsub nopp nadd]. rewrite nsqrt_fin by lra.
  rewrite ndiv_fin by lra. cbn [nmul]. rewrite ndiv_fin by lra. cbn [nmul].
  unfold flow_factor, vfr_real. rewrite Hs'.
  destruct negative.
  - cbn [nabs nmul nsign]. rewrite ndiv_fin by lra.
    assert (Hq : 0 <= 2 * Rabs delta / rho).
    { unfold Rdiv. apply Rmult_le_pos.
      - pose proof (Rabs_pos delta). lra.
      - apply Rlt_le. now apply Rinv_0_lt_compat. }
    rewrite nsqrt_fin by assumption.
    destruct (Rlt_dec delta 0) as [Hn | Hn].
    + rewrite (Rltb_true delta 0) by assumption. cbn [nmul]. f_equal. field. lra.
    + rewrite (Rltb_false delta 0) by lra.
      destruct (Rlt_dec 0 delta) as [Hp | Hz].
      * rewrite Rltb_true by assumption. cbn [nmul].
        rewrite Rabs_pos_eq by lra. f_equal. field. lra.
      * rewrite Rltb_false by lra. cbn [nmul].
        assert (delta = 0) by lra. subst delta.
        replace (2 * 0 / rho) with 0 by (field; lra). rewrite sqrt_0.
        f_equal. ring.
  - destruct (Rlt_dec delta 0) as [Hn | Hn]; [specialize (Hneg Hn); discriminate |].
    rewrite (Rltb_false delta 0) by lra.
    cbn [nmul]. rewrite ndiv_fin by lra.
    assert (Hq : 0 <= 2 * delta / rho).
    { unfold Rdiv. apply Rmult_le_pos; [lra |].
      apply Rlt_le. now apply Rinv_0_lt_compat. }
    rewrite nsqrt_fin by assumption. cbn [nmul]. f_equal. field. lra.
Qed.

Lemma any_negative_entry v i :
  valid_index v i -> nlt (get v i) (Fin 0) = true -> any_negative v = true.
Proof.
  destruct v as [x | x | xs]; cbn [get any_negative nlt]; try (intros _ H; exact H).
  unfold valid_index. cbn [size]. intros Hv H.
  apply existsb_exists. eexists. split; [| exact H].
  apply nth_In. now apply slot_lt.
Qed.

(** ** The order of the returned flow rates *)

Lemma order_of_products c err eps u K :
  0 <= K -> 0 <= err <= c -> 0 <= u -> 0 <= eps ->
  (c - err) * (eps - u) * K <= c * eps * K <= (c + err) * (eps + u) * K.
Proof.
  intros HK Hc Hu He.
  assert (H1 : (c - err) * (eps - u) <= c * eps) by nra.
  assert (H2 : c * eps <= (c + err) * (eps + u)) by nra.
  split; apply Rmult_le_compat_r; assumption.
Qed.



(** ** The sign of the flow formula *)

Lemma nmul_minus_one y : nmul y (Fin (-1)) = nopp y.
Proof.
  destruct y as [r | | |]; cbn [nmul nopp]; try reflexivity.
  - f_equal. ring.
  - unfold nmul_inf. rewrite Reqb_false, Rltb_false by lra. reflexivity.
  - unfold nmul_inf. rewrite Reqb_false, Rltb_false by lra. reflexivity.
Qed.

Lemma nsign_negative x : nlt x (Fin 0) = true -> nsign x = Fin (-1).
Proof.
  destruct x as [r | | |]; cbn [nlt nsign]; try discriminate; try reflexivity.
  intros ->. reflexivity.
Qed.

Lemma nabs_not_negative x : nlt (nabs x) (Fin 0) = false.
Proof.
  destruct x as [r | | |]; cbn [nabs nlt]; try reflexivity.
  apply Rltb_false. apply Rabs_pos.
Qed.

Lemma any_negative_abs v : any_negative (vmap nabs v) = false.
Proof.
  destruct v as [x | x | xs]; cbn [vmap any_negative].
  - apply (nabs_not_negative (Fin x)).
  - apply nabs_not_negative.
  - induction xs as [| x xs IH]; cbn [map existsb]; [reflexivity |].
    now rewrite nabs_not_negative, IH.
Qed.

Lemma vfr_num_opp c beta d eps delta rho :
  nlt delta (Fin 0) = true ->
  vfr_num c beta d eps delta rho true
  = nopp (vfr_num c beta d eps (nabs delta) rho false).
Proof.
  intros H. unfold vfr_num. rewrite (nsign_negative _ H).
  apply nmul_minus_one.
Qed.


Lemma vfr_real_value cg c dv dpv beta d eps rho :
  real_value cg c -> real_value dv dpv -> 0 < beta < 1 -> 0 < d -> 0 < rho ->
  0 <= dpv ->
  _vfr cg (Py beta) (Py d) (Py eps) dv (Py rho)
  = Ok (Np (Fin (vfr_real c beta d eps dpv rho))).
Proof.
  intros Hc [-> | ->] Hb Hd Hrho Hdp; [now apply vfr_scalar |].
  assert (H4 : Rpower beta 4 < 1) by (apply Rpower_lt_1; lra).
  assert (Hs : 0 < sqrt (1 - Rpower beta 4)) by (apply sqrt_lt_R0; lra).
  assert (Hq : 0 <= 2 * dpv / rho).
  { unfold Rdiv. apply Rmult_le_pos; [lra |].
    apply Rlt_le, Rinv_0_lt_compat. assumption. }
  unfold _vfr, vfr_real, any_negative. cbn [nlt].
  rewrite (Rltb_false dpv 0) by lra.
  destruct Hc as [-> | ->]; py_eval; reflexivity.
Qed.


(** ** Shapes through the program *)

Lemma lift2_sizes op nf ma mb r :
  op_facts op nf -> lift2 op ma mb = Ok r ->
  exists a b,
    ma = Ok a /\ mb = Ok b /\
    compat (size a) (size b) /\ size r = join (size a) (size b).
Proof.
  intros Hop H.
  destruct (lift2_facts op nf ma mb r Hop H) as (a & b & Ha & Hb & Hc & Hs & _).
  eauto 6.
Qed.

Lemma lift1_sizes f ma r :
  lift1 (vmap f) ma = Ok r -> exists a, ma = Ok a /\ size r = size a.
Proof.
  intros H. destruct (lift1_facts f ma r H) as (a & Ha & Hs & _). eauto.
Qed.

(** As [facts], for the shapes alone. *)
Ltac sizes H :=
  let a := fresh "a" in
  let b := fresh "b" in
  let Ha := fresh "Ha" in
  let Hb := fresh "Hb" in
  let Hc := fresh "Hcompat" in
  let Hs := fresh "Hsize" in
  let go2 lem :=
    (apply (lift2_sizes _ _ _ _ _ lem) in H;
     destruct H as (a & b & Ha & Hb & Hc & Hs);
     sizes Ha; sizes Hb) in
  let go1 :=
    (apply lift1_sizes in H;
     destruct H as (a & Ha & Hs);
     sizes Ha) in
  lazymatch type of H with
  | lift2 vadd _ _ = Ok _ => go2 vadd_facts
  | lift2 vsub _ _ = Ok _ => go2 vsub_facts
  | lift2 vmul _ _ = Ok _ => go2 vmul_facts
  | lift2 vdiv _ _ = Ok _ => go2 vdiv_facts
  | lift2 vpow _ _ = Ok _ => go2 vpow_facts
  | lift1 (vmap _) _ = Ok _ => go1
  | np_sqrt _ = Ok _ => unfold np_sqrt in H; go1
  | np_exp _ = Ok _ => unfold np_exp in H; go1
  | np_abs _ = Ok _ => unfold np_abs in H; go1
  | np_sign _ = Ok _ => unfold np_sign in H; go1
  | np_pi = Ok _ => unfold np_pi, lit in H; inversion H; subst
  | lit _ = Ok _ => unfold lit in H; inversion H; subst
  | ret_value _ = Ok _ => unfold ret_value in H; inversion H; subst
  | _ => idtac
  end.

Lemma vfr_compat C_0 beta d eps dpv rho r :
  _vfr C_0 beta d eps dpv rho = Ok r -> compat (size dpv) (size rho).
Proof.
  unfold _vfr. intros H.
  destruct (any_negative dpv); sizes H; shapes; congruence.
Qed.

(** Substitutes the shapes of intermediate values until only the shapes of
    the inputs are left. *)
Ltac propagate :=
  shapes;
  repeat match goal with
    | H : size ?v = ?t |- _ =>
        is_var v; try rewrite H in *; clear H; shapes
    end.

Lemma compute_flow_coefficient_size beta D Re C u :
  compute_flow_coefficient beta D Re = Ok (C, u) -> size C = size Re.
Proof.
  unfold compute_flow_coefficient. intros H.
  apply bind_Ok in H. destruct H as [L_1 [H1 H]].
  apply bind_Ok in H. destruct H as [L_s2 [H2 H]].
  apply bind_Ok in H. destruct H as [M_s2 [H3 H]].
  apply bind_Ok in H. destruct H as [A [H4 H]].
  apply bind_Ok in H. destruct H as [C0 [H5 H]].
  apply bind_Ok in H. destruct H as [C1 [H6 H]].
  injection H as <- _.
  sizes H1. sizes H2. sizes H3. sizes H4. sizes H5.
  destruct (Rltb D 0.7112); sizes H6; propagate; reflexivity.
Qed.

(** Decides a goal on shapes by cases. *)
Ltac join_cases :=
  cbn [join compat] in *;
  repeat match goal with
    | H : _ \/ _ |- _ => destruct H
    end;
  repeat match goal with
    | |- context [(?x =? ?y)%nat] => destruct (Nat.eqb_spec x y)
    | H : context [(?x =? ?y)%nat] |- _ => destruct (Nat.eqb_spec x y)
    end;
  subst; try reflexivity; try congruence; try (exfalso; lia).

Lemma normalize_T_size T T' : normalize_T T = Ok T' -> size T' = size T.
Proof.
  unfold normalize_T, Cel2Kel. intros H.
  destruct T as [t | t | ts];
    match type of H with
    | (if ?c then _ else _) = _ => destruct c
    end;
    try (injection H as <-; reflexivity);
    sizes H; propagate; reflexivity.
Qed.

Lemma setup_sizes a e :
  setup a = Ok e ->
  size (e_A_D e) = None /\ size (e_nu_air e) = size (e_rho_air e).
Proof.
  unfold setup. intros H.
  apply bind_Ok in H. destruct H as [[beta adv] [_ H]].
  destruct (String.eqb (length_unit a) "mm");
    (apply bind_Ok in H; destruct H as [A_D [HA H]];
     apply bind_Ok in H; destruct H as [T' [HT H]];
     apply bind_Ok in H; destruct H as [rho [Hrho H]];
     apply bind_Ok in H; destruct H as [mu [Hmu H]];
     apply bind_Ok in H; destruct H as [nu [Hnu H]];
     apply bind_Ok in H; destruct H as [p2 [_ H]];
     apply bind_Ok in H; destruct H as [[eps eps_u] [_ H]];
     injection H as <-; cbn [e_A_D e_nu_air e_rho_air];
     apply normalize_T_size in HT;
     unfold compute_density in Hrho;
     apply bind_Ok in Hrho; destruct Hrho as [Rf [HRf Hrho]];
     unfold compute_mu_air in Hmu;
     sizes HA; sizes HRf; sizes Hrho; sizes Hmu; sizes Hnu;
     propagate; split; [reflexivity |];
     destruct (size (p1 a)) as [m |], (size (T a)) as [n |]; join_cases).
Qed.

(** ** Operations that cannot raise *)

Lemma compat_refl s : compat s s.
Proof. destruct s; cbn; auto. Qed.

Lemma compat_sym s t : compat s t -> compat t s.
Proof. destruct s, t; cbn; intuition. Qed.

Lemma broadcast_ok f a b :
  compat (size a) (size b) ->
  exists r, broadcast f a b = Ok r /\ size r = join (size a) (size b).
Proof.
  intros Hc.
  assert (H : exists r, broadcast f a b = Ok r).
  { unfold broadcast.
    destruct a as [x | x | xs], b as [y | y | ys]; cbn [items]; eauto.
    cbn [size compat] in Hc.
    destruct (List.length xs =? List.length ys)%nat eqn:E; [eauto |].
    apply Nat.eqb_neq in E.
    destruct xs as [| x [| x' xs]]; eauto;
      destruct ys as [| y [| y' ys]]; eauto;
      cbn [List.length] in *; exfalso; lia. }
  destruct H as [r Hr]. exists r. split; [assumption |].
  now destruct (broadcast_facts f a b r Hr) as (_ & Hs & _).
Qed.

Lemma broadcast_numpy f a b r : broadcast f a b = Ok r -> numpy r.
Proof.
  unfold broadcast.
  destruct (items a), (items b); try (intros H; inversion H; exact I).
  destruct (List.length l =? List.length l0)%nat;
    [intros H; inversion H; exact I |].
  destruct l as [| x [| x' xs]], l0 as [| y [| y' ys]];
    intros H; inversion H; exact I.
Qed.

Lemma vadd_ok : total_op vadd.
Proof.
  intros a b Hc. destruct (broadcast_ok nadd a b Hc) as (r & Hr & Hs).
  destruct a as [x | x | xs], b as [y | y | ys];
    try (exists r; split; [exact Hr |]; split; [exact Hs |];
         intros _; exact (broadcast_numpy _ _ _ _ Hr)).
  eexists. split; [reflexivity |]. split; [reflexivity |]. cbn. tauto.
Qed.

Lemma vsub_ok : total_op vsub.
Proof.
  intros a b Hc. destruct (broadcast_ok nsub a b Hc) as (r & Hr & Hs).
  destruct a as [x | x | xs], b as [y | y | ys];
    try (exists r; split; [exact Hr |]; split; [exact Hs |];
         intros _; exact (broadcast_numpy _ _ _ _ Hr)).
  eexists. split; [reflexivity |]. split; [reflexivity |]. cbn. tauto.
Qed.

Lemma vmul_ok : total_op vmul.
Proof.
  intros a b Hc. destruct (broadcast_ok nmul a b Hc) as (r & Hr & Hs).
  destruct a as [x | x | xs], b as [y | y | ys];
    try (exists r; split; [exact Hr |]; split; [exact Hs |];
         intros _; exact (broadcast_numpy _ _ _ _ Hr)).
  eexists. split; [reflexivity |]. split; [reflexivity |]. cbn. tauto.
Qed.

(** numpy's division returns whenever the shapes agree. *)
Lemma vdiv_ok a b :
  numpy a \/ numpy b -> compat (size a) (size b) ->
  exists r, vdiv a b = Ok r /\ size r = join (size a) (size b) /\ numpy r.
Proof.
  intros Hn Hc. destruct (broadcast_ok ndiv a b Hc) as (r & Hr & Hs).
  destruct a as [x | x | xs], b as [y | y | ys];
    try (exists r; split; [exact Hr |]; split; [exact Hs |];
         exact (broadcast_numpy _ _ _ _ Hr)).
  cbn in Hn. tauto.
Qed.

Lemma is_int_IZR n : is_int (IZR n) = true.
Proof.
  unfold is_int. apply Reqb_true. f_equal.
  apply Int_part_spec. split; lra.
Qed.

(** A power with the exponent 2 or 4 returns, whatever the base. *)
Lemma vpow_even_ok a (n : Z) :
  (0 < n)%Z ->
  exists r, vpow a (Py (IZR n)) = Ok r /\ size r = size a /\
            (numpy a -> numpy r).
Proof.
  intros Hn. assert (Hn' : 0 < IZR n) by now apply IZR_lt.
  destruct a as [x | x | xs].
  - cbn [vpow]. unfold pypow. rewrite Reqb_false by lra.
    destruct (Rltb 0 x); [eexists; repeat split; cbn; tauto |].
    destruct (Reqb x 0).
    + rewrite Rltb_true by assumption. eexists; repeat split; cbn; tauto.
    + rewrite is_int_IZR. eexists; repeat split; cbn; tauto.
  - eexists. repeat split.
  - eexists. split; [reflexivity |]. split; [| intros _; exact I].
    cbn. now rewrite length_map.
Qed.

Lemma vmap_numpy f v : numpy (vmap f v).
Proof. destruct v; exact I. Qed.

Lemma compat_None_r s : compat s None.
Proof. destruct s; exact I. Qed.

(** After the loop nothing raises once the body has run: the pressure loss
    is computed by numpy from operands of agreeing shapes. *)
Lemma finish_ok e s capped C vfr vmin vmax :
  s_C s = Some C -> s_vfr_value s = Some vfr ->
  s_vfr_value_min s = Some vmin -> s_vfr_value_max s = Some vmax ->
  compat (size C) (size (e_dp e)) ->
  exists loss,
    finish e s capped
    = Ok {| qv := vfr; qv_min := vmin; qv_max := vmax; dp_loss := loss;
            max_iterations_reached := capped;
            advisories := e_advisories e; final := s |}.
Proof.
  intros HC Hv Hmin Hmax Hdp. unfold finish.
  rewrite HC, Hv, Hmin, Hmax. cbn [load bind].
  destruct (vpow_even_ok (Py (e_beta e)) 4 ltac:(lia)) as (b4 & Hb4 & Sb4 & _).
  destruct (vpow_even_ok C 2 ltac:(lia)) as (c2 & Hc2 & Sc2 & _).
  destruct (vsub_ok (Py 1) c2 I) as (m1 & Hm1 & Sm1 & _).
  destruct (vmul_ok b4 m1) as (p1v & Hp1 & Sp1 & _);
    [rewrite Sb4; exact I |].
  destruct (vsub_ok (Py 1) p1v I) as (e1 & He1 & Se1 & _).
  destruct (vmap_facts nsqrt e1) as [Sn1 _].
  destruct (vpow_even_ok (Py (e_beta e)) 2 ltac:(lia)) as (b2 & Hb2 & Sb2 & _).
  destruct (vmul_ok C b2) as (t2 & Ht2 & St2 & _);
    [rewrite Sb2; apply compat_None_r |].
  assert (S1 : size (vmap nsqrt e1) = size C).
  { rewrite Sn1, Se1, Sp1, Sb4, Sm1, Sc2. reflexivity. }
  assert (S2 : size t2 = size C).
  { rewrite St2, Sb2. cbn [size]. apply join_None_r. }
  destruct (vsub_ok (vmap nsqrt e1) t2) as (n & Hn & Sn & Nn);
    [rewrite S1, S2; apply compat_refl |].
  destruct (vadd_ok (vmap nsqrt e1) t2) as (dn & Hdn & Sdn & Ndn);
    [rewrite S1, S2; apply compat_refl |].
  rewrite S1, S2, join_idem in Sn, Sdn.
  destruct (vdiv_ok n dn) as (q & Hq & Sq & Nq).
  { left. apply Nn. left. apply vmap_numpy. }
  { rewrite Sn, Sdn. apply compat_refl. }
  rewrite Sn, Sdn, join_idem in Sq.
  destruct (vmul_ok q (e_dp e)) as (loss & Hloss & _ & _);
    [rewrite Sq; assumption |].
  exists loss.
  repeat (cbn [lift2 lift1 bind lit ret_value np_sqrt];
          rewrite ?Hb4, ?Hc2, ?Hm1, ?Hp1, ?He1, ?Hb2, ?Ht2, ?Hn, ?Hdn, ?Hq,
            ?Hloss).
  reflexivity.
Qed.

(** The coefficient of a pass has the shape of the density, with which the
    pressure difference has been combined. *)
Lemma body_shapes e s s' :
  size (e_A_D e) = None -> size (e_nu_air e) = size (e_rho_air e) ->
  body e s = Ok s' ->
  exists C vfr vmin vmax,
    s_C s' = Some C /\ s_vfr_value s' = Some vfr /\
    s_vfr_value_min s' = Some vmin /\ s_vfr_value_max s' = Some vmax /\
    compat (size C) (size (e_dp e)).
Proof.
  intros HA Hnu Hb. apply body_inv in Hb.
  destruct Hb as (vfr & u & Re & C & C_err & C_hi & eps_hi & vmax & C_lo
                  & eps_lo & vmin & r & H1 & H2 & H3 & H4 & _ & _ & _ & _
                  & _ & _ & _ & ->).
  exists C, vfr, vmin, vmax. repeat split.
  apply vfr_compat in H1. apply compute_flow_coefficient_size in H4.
  destruct (vdiv_facts _ _ _ H2) as (_ & Su & _).
  unfold compute_reynolds_number in H3. sizes H3.
  rewrite HA in *. propagate. rewrite Hnu.
  now apply compat_sym.
Qed.

(** ** The iteration cap *)

Lemma finish_after_body a e s0 s capped :
  setup a = Ok e -> body e s0 = Ok s ->
  exists out,
    finish e s capped = Ok out /\ max_iterations_reached out = capped /\
    final out = s /\ s_vfr_value s = Some (qv out) /\
    s_vfr_value_min s = Some (qv_min out) /\
    s_vfr_value_max s = Some (qv_max out).
Proof.
  intros Hs Hb. destruct (setup_sizes a e Hs) as [HA Hnu].
  destruct (body_shapes e s0 s HA Hnu Hb)
    as (C & vfr & vmin & vmax & HC & Hv & Hmin & Hmax & Hc).
  destruct (finish_ok e s capped C vfr vmin vmax HC Hv Hmin Hmax Hc)
    as [loss Hf].
  eexists. split; [exact Hf |]. cbn. repeat split; assumption.
Qed.



(** ** Further properties of the code *)

(** A call on floats in the domain of the lines before the loop, with a
    residual seed above the tolerance, returns a tuple: no float in that
    domain, no length unit and no coefficient guess makes the loop or the
    lines after it raise. *)
Theorem float_call_returns d D unit dpv p t ph kap cg res :
  natural d D dpv p t ph kap -> eps_res < res ->
  exists out,
    compute_volume_flow_rate
      {| dp := Py dpv; d_orifice := d; d_pipe := D; length_unit := unit;
         p1 := Py p; T := Py t; phi := ph; kappa := kap;
         C_guess := cg; residuum := res |} = Ok out /\
    (1 <= s_j (final out) <= 1000)%nat.
Proof.
  intros Hn Hres.
  destruct (compute_volume_flow_rate_total d D unit dpv p t ph kap cg res
              Hn Hres) as [out Hout].
  exists out. split; [exact Hout |].
  destruct (last_pass _ _ Hout) as (e & s & _ & Hb & _ & _ & _ & Hj & _).
  apply body_j in Hb. lia.
Qed.

Lemma float_call_returns_witness :
  exists out,
    compute_volume_flow_rate (example_call 5000 1.4) = Ok out /\
    (1 <= s_j (final out) <= 1000)%nat.
Proof.
  apply (float_call_returns 50 100 "mm" 5000 200000 293.15 0 1.4 0.62 0.1).
  - apply natural_example_call; lra.
  - unfold eps_res. lra.
Defined.

(** For a negative Reynolds number the powers of lines 165-167 are invalid:
    [compute_flow_coefficient] returns NaN for the coefficient, beside the
    uncertainty of the table, and does not raise. *)
Theorem coefficient_of_negative_reynolds beta D re :
  0 < beta < 1 -> 0 < D -> re < 0 ->
  compute_flow_coefficient beta D (Np (Fin re))
  = Ok (Np NaN, flow_uncertainty beta D (Np (Fin re))).
Proof. apply compute_flow_coefficient_neg. Qed.

Lemma coefficient_of_negative_reynolds_witness :
  compute_flow_coefficient 0.5 0.1 (Np (Fin (-1)))
  = Ok (Np NaN, flow_uncertainty 0.5 0.1 (Np (Fin (-1)))).
Proof. apply coefficient_of_negative_reynolds; lra. Defined.

(** Above the table of the uncertainty, [beta > 0.77], a pipe below
    0.7112 m gets a negative uncertainty: line 187 adds a negative term to
    the 0 of line 182. *)
Theorem uncertainty_negative_above_table beta D Re C u :
  0.77 < beta -> D < 0.7112 ->
  compute_flow_coefficient beta D Re = Ok (C, u) ->
  u = 0.9 * (0.75 - beta) * (2.8 - D / 25.4) / 100 /\ u < 0.
Proof.
  intros Hb HD H. apply compute_flow_coefficient_uncertainty in H.
  assert (E : u = 0.9 * (0.75 - beta) * (2.8 - D / 25.4) / 100).
  { rewrite H. unfold flow_uncertainty, base_uncertainty.
    rewrite (Rltb_false beta 0.2), (Rleb_false beta 0.6),
      (Rleb_false beta 0.77) by lra.
    rewrite !andb_false_r. rewrite (Rltb_false 0 0) by lra.
    rewrite (Rltb_true D) by lra. lra. }
  split; [exact E |]. rewrite E. nra.
Qed.

Lemma uncertainty_negative_above_table_witness :
  exists C u,
    compute_flow_coefficient 0.8 0.1 (Np (Fin 5000)) = Ok (C, u) /\ u < 0.
Proof.
  assert (H := compute_flow_coefficient_pos 0.8 0.1 5000
                 ltac:(lra) ltac:(lra) ltac:(lra)).
  do 2 eexists. split; [exact H |].
  apply (uncertainty_negative_above_table 0.8 0.1 _ _ _
           ltac:(lra) ltac:(lra) H).
Defined.

(** The correlation of line 164-168 is negative for the orifice of 999.9 mm
    in the pipe of 1 m between the Reynolds numbers 11 and 59:
    [compute_flow_coefficient] returns a negative coefficient, with the
    uncertainty 0. *)
Theorem negative_flow_coefficient re :
  11 <= re <= 59 ->
  exists C,
    compute_flow_coefficient (999.9 / 1000) (metres "mm" 1000) (Np (Fin re))
    = Ok (Np (Fin C), 0) /\ C < -1.
Proof.
  intros Hre. exists (C_real (999.9 / 1000) (metres "mm" 1000) re).
  split; [| now apply C_real_wide_orifice].
  rewrite <- (wide_orifice_uncertainty re).
  apply compute_flow_coefficient_pos; [lra | | lra].
  unfold metres. cbn [String.eqb Ascii.eqb Bool.eqb]. lra.
Qed.

Lemma negative_flow_coefficient_witness :
  exists C,
    compute_flow_coefficient (999.9 / 1000) (metres "mm" 1000) (Np (Fin 26))
    = Ok (Np (Fin C), 0) /\ C < -1.
Proof. apply negative_flow_coefficient. lra. Defined.

(** A positive pressure difference with a negative flow rate: the call with
    the orifice of 999.9 mm makes two passes without reaching the cap, and
    the flow rate it returns is the one of the negative coefficient of the
    first pass. *)
Theorem negative_flow_for_positive_dp :
  exists out q,
    dp wide_orifice_call = Py 1e-7 /\
    compute_volume_flow_rate wide_orifice_call = Ok out /\
    qv out = Np (Fin q) /\ q < 0 /\
    max_iterations_reached out = false /\ s_j (final out) = 2%nat.
Proof.
  destruct wide_orifice_run as (adv & loss & s & C & Hs & HC & Hrun & _ & Hj).
  cbn zeta in *.
  do 2 eexists. split; [reflexivity |]. split; [exact Hrun |].
  cbn [qv max_iterations_reached final].
  split; [reflexivity |]. split; [| split; [reflexivity | exact Hj]].
  pose proof natural_wide_orifice as Hn.
  pose proof (ready_scalar_env 999.9 1000 "mm" 1e-7 100 293.15 0 1.4 adv Hn)
    as He.
  pose proof (ready_beta _ _ _ _ _ _ _ He) as Hb.
  pose proof (ready_d _ _ _ _ _ _ _ He) as Hd.
  destruct (ready_rho _ _ _ _ _ _ _ He) as [_ Hrho].
  cbn [scalar_env e_beta e_d_orifice] in Hb, Hd.
  destruct (flow_factor_sign (999.9 / 1000) (metres "mm" 999.9) 1e-7
              (rho_real 100 (kelvin 293.15) 0) Hb Hd Hrho) as (HK & _ & _).
  specialize (HK ltac:(lra)).
  pose proof eps_wide_orifice as Heps.
  rewrite vfr_real_factor by assumption.
  set (K := flow_factor (999.9 / 1000) (metres "mm" 999.9) 1e-7
              (rho_real 100 (kelvin 293.15) 0)) in *.
  set (eps := eps_real (999.9 / 1000) 100 1e-7 1.4) in *.
  assert (HeK : 0 < eps * K) by (apply Rmult_lt_0_compat; lra).
  rewrite Rmult_assoc. nra.
Qed.

(** A negative pressure difference is not iterated: with a positive
    coefficient guess and a positive expansion number the first pass gives a
    negative flow rate and Reynolds number, the coefficient NaN ends the
    loop, and the returned flow rate is the one of the initial guess. *)
Theorem negative_dp_single_pass d D unit dpv p t ph kap cg res :
  natural d D dpv p t ph kap -> dpv < 0 -> 0 < cg ->
  0 < eps_real (d / D) p dpv kap -> eps_res < res ->
  exists out q,
    compute_volume_flow_rate
      {| dp := Py dpv; d_orifice := d; d_pipe := D; length_unit := unit;
         p1 := Py p; T := Py t; phi := ph; kappa := kap;
         C_guess := cg; residuum := res |} = Ok out /\
    s_j (final out) = 1%nat /\ max_iterations_reached out = false /\
    s_C (final out) = Some (Np NaN) /\
    qv out = Np (Fin q) /\
    q = vfr_real cg (d / D) (metres unit d) (eps_real (d / D) p dpv kap) dpv
          (rho_real p (kelvin t) ph) /\
    q < 0.
Proof.
  intros Hn Hdp Hcg Heps Hres.
  destruct (setup_scalar d D unit dpv p t ph kap cg res Hn) as [adv [_ Hs]].
  pose proof (ready_scalar_env d D unit dpv p t ph kap adv Hn) as He.
  set (e := scalar_env d D unit dpv p t ph kap adv) in *.
  set (eps := eps_real (d / D) p dpv kap) in *.
  set (rho := rho_real p (kelvin t) ph) in *.
  set (nu := mu_real (kelvin t) / rho) in *.
  set (A := area (metres unit d)) in *.
  pose proof (ready_beta _ _ _ _ _ _ _ He) as Hb.
  pose proof (ready_d _ _ _ _ _ _ _ He) as Hd.
  pose proof (ready_D _ _ _ _ _ _ _ He) as HD.
  destruct (ready_A _ _ _ _ _ _ _ He) as [_ HA].
  destruct (ready_rho _ _ _ _ _ _ _ He) as [_ Hrho].
  destruct (ready_nu _ _ _ _ _ _ _ He) as [_ Hnu].
  destruct (flow_factor_sign (e_beta e) (e_d_orifice e) dpv rho Hb Hd Hrho)
    as (_ & HK & _).
  specialize (HK Hdp).
  assert (Hq : vfr_real cg (e_beta e) (e_d_orifice e) eps dpv rho < 0).
  { rewrite vfr_real_factor by assumption.
    set (K := flow_factor (e_beta e) (e_d_orifice e) dpv rho) in *.
    assert (0 < cg * eps) by (apply Rmult_lt_0_compat; lra). nra. }
  assert (Hre : vfr_real cg (e_beta e) (e_d_orifice e) eps dpv rho
                / A * e_d_pipe e / nu < 0).
  { assert (0 < / A) by now apply Rinv_0_lt_compat.
    assert (0 < / nu) by now apply Rinv_0_lt_compat.
    unfold Rdiv.
    assert (Hm : 0 < / A * e_d_pipe e * / nu).
    { apply Rmult_lt_0_compat; [apply Rmult_lt_0_compat |]; assumption. }
    rewrite !Rmult_assoc. rewrite <- (Rmult_assoc (/ A)). nra. }
  destruct (one_pass_when_reynolds_negative _ e A rho nu eps _ dpv Hs He
              Hres Hre) as [loss Hrun].
  do 2 eexists. split; [exact Hrun |].
  cbn [final qv max_iterations_reached pass s_j s_C initial_state].
  repeat split. exact Hq.
Qed.

Lemma negative_dp_single_pass_witness :
  exists out q,
    compute_volume_flow_rate (example_call (-150000) 1.4) = Ok out /\
    s_j (final out) = 1%nat /\ qv out = Np (Fin q) /\ q < 0.
Proof.
  destruct (negative_dp_single_pass 50 100 "mm" (-150000) 200000 293.15 0 1.4
              0.62 0.1) as (out & q & Hrun & Hj & _ & _ & Hq & _ & Hneg).
  - apply natural_example_call; lra.
  - lra.
  - lra.
  - pose proof eps_example_negative. lra.
  - unfold eps_res. lra.
  - exists out, q. repeat split; assumption.
Defined.

(** What [compute_beta] warns about: at most one thing, the first of the
    orifice diameter, the pipe diameter and the diameter ratio that is out
    of range; an orifice of exactly 12.5 mm is warned about; nothing is
    reported exactly when the three are in range. *)
Theorem compute_beta_advisories d D unit b adv :
  compute_beta d D unit "flange" = Ok (b, adv) ->
  b = d / D /\ (List.length adv <= 1)%nat /\
  (adv = [] <->
   12.5 < millimetres unit d /\ 50 <= millimetres unit D <= 1000 /\
   0.1 <= b <= 0.75) /\
  (millimetres unit d <= 12.5 ->
   adv = [OrificeTooSmall (millimetres unit d)]).
Proof.
  unfold compute_beta, millimetres, pydiv.
  destruct (Rleb D d); [discriminate |].
  destruct (Reqb D 0); [discriminate |]. cbn [bind negb String.eqb Ascii.eqb Bool.eqb].
  destruct (String.eqb unit "m");
    unfold Rleb, Rltb;
    repeat match goal with
      | |- context [Rlt_dec ?x ?y] => destruct (Rlt_dec x y)
      | |- context [Rle_dec ?x ?y] => destruct (Rle_dec x y)
      end;
    cbn [orb]; intros H; injection H as <- <-;
    (split; [reflexivity |]); (split; [cbn; lia |]);
    (split; [split; [intros E; try discriminate E; lra
                    | intros E; try reflexivity; exfalso; lra]
            | intros E; try reflexivity; exfalso; lra]).
Qed.

Lemma compute_beta_advisories_witness :
  exists adv,
    compute_beta 12.5 100 "mm" "flange" = Ok (12.5 / 100, adv) /\
    adv = [OrificeTooSmall (millimetres "mm" 12.5)].
Proof.
  destruct (compute_beta_flange_ok 12.5 100 "mm") as [adv H]; [lra | lra |].
  exists adv. split; [exact H |].
  apply (proj2 (proj2 (proj2 (compute_beta_advisories _ _ _ _ _ H)))).
  unfold millimetres. cbn [String.eqb Ascii.eqb Bool.eqb]. lra.
Defined.
